(** * ShaderAssist: the watch-and-rebuild loop of [shaderassist.cpp]

    A shallow embedding of the program: the configuration record and its
    parser, the compiler command line, the per-cycle directory scan with its
    global state, the command prompt, and what [main] does before the watcher
    thread starts. *)

From Stdlib Require Import ZArith String Ascii List Lia.
From stdpp Require Import base option list strings gmap.

Local Open Scope Z_scope.
Local Open Scope string_scope.

(** ** Library types *)

(** [fs::path] is kept as the string it was built from. *)
Abbreviation path := string (only parsing).

(** [fs::file_time_type]: a count of ticks of the file clock. *)
Abbreviation file_time_type := Z (only parsing).

(** What [std::filesystem] and the file clock compute and the program only
    calls: [fs::path::stem], [fs::path::extension] and
    [file_time_type::clock::to_time_t] (whole seconds, a [std::time_t]). *)
Class FsLibrary := {
  stem : path -> string;
  extension : path -> string;
  to_time_t : file_time_type -> Z
}.

(** ** Configuration (values extracted from the .ini file) *)

Record Config := {
  CompileOnStartup : bool;
  UseGoogleSPIRV : bool;
  GenerateMetaData : bool;
  GLSLLangValidatorPath : string;
  GLSLCPath : string;
  ShaderSourcePath : string;
  SPIRVOutputPath : string;
  SPIRVExt : string;
  VSExt : string;
  FSExt : string;
  CSExt : string;
  GSExt : string
}.

(** ** compileShader *)

(** The [command] string that [compileShader] builds. *)
Definition compileShader_command (config : Config) (filename ext : string) : string :=
  if UseGoogleSPIRV config then
    GLSLCPath config +:+ " " +:+ filename +:+ ext +:+ " -o " +:+
    SPIRVOutputPath config +:+ "/" +:+ filename +:+ ext +:+ SPIRVExt config
  else
    GLSLLangValidatorPath config +:+ " - V " +:+ filename +:+ ext +:+ " -o " +:+
    SPIRVOutputPath config +:+ "/" +:+ filename +:+ ext +:+ SPIRVExt config.

(** The three preprocessor branches around the call of [system]. *)
Inductive target := Win32 | Unix | OtherTarget.

(** The argument [compileShader] hands to [system]. *)
Definition compileShader (t : target) (config : Config) (filename ext : string) : string :=
  let command := compileShader_command config filename ext in
  match t with
  | Win32 => command +:+ " > nul"
  | Unix => command +:+ " > /dev/null"
  | OtherTarget => command
  end.

(** The command lines of section 4.3 of the specification, as written there. *)
Definition spec_alternate_command (config : Config) (basename ext : string) : string :=
  GLSLCPath config +:+ " " +:+ basename +:+ ext +:+ " -o " +:+
  SPIRVOutputPath config +:+ "/" +:+ basename +:+ ext +:+ SPIRVExt config.

Definition spec_primary_command (config : Config) (basename ext : string) : string :=
  GLSLLangValidatorPath config +:+ " -V " +:+ basename +:+ ext +:+ " -o " +:+
  SPIRVOutputPath config +:+ "/" +:+ basename +:+ ext +:+ SPIRVExt config.

(** ** The [std::string] operations the program uses *)

(** [std::size_t] is 64 bits wide; [std::string::npos] is its largest value. *)
Definition size_t_modulus : Z := 2 ^ 64.
Definition npos : Z := size_t_modulus - 1.
Definition size_t_add (a b : Z) : Z := (a + b) mod size_t_modulus.

Definition size (s : string) : Z := Z.of_nat (String.length s).

Fixpoint string_take (n : nat) (s : string) : string :=
  match n, s with
  | S n', String c s' => String c (string_take n' s')
  | _, _ => EmptyString
  end.

Fixpoint string_drop (n : nat) (s : string) : string :=
  match n, s with
  | S n', String _ s' => string_drop n' s'
  | _, _ => s
  end.

(** [s[i]]: the character at [i]; the terminating null character at
    [i = s.size()]; undefined behaviour ([None]) beyond that. *)
Definition string_at (s : string) (i : Z) : option ascii :=
  if bool_decide (0 <= i < size s) then String.get (Z.to_nat i) s
  else if bool_decide (i = size s) then Some Ascii.zero
  else None.

(** Whether the character [c] occurs in [s]. *)
Fixpoint occurs (c : ascii) (s : string) : bool :=
  match s with
  | EmptyString => false
  | String a s' => Ascii.eqb a c || occurs c s'
  end.

(** [s.find(c)]: the position of the first [c], or [npos]. *)
Fixpoint find_from (c : ascii) (s : string) (i : Z) : Z :=
  match s with
  | EmptyString => npos
  | String a s' => if Ascii.eqb a c then i else find_from c s' (i + 1)
  end.

Definition find (c : ascii) (s : string) : Z := find_from c s 0.

(** [s.substr(pos, count)]: throws [std::out_of_range] ([None]) when
    [pos > s.size()], otherwise the characters from [pos], at most [count]
    of them. *)
Definition substr (s : string) (pos count : Z) : option string :=
  if bool_decide (size s < pos) then None
  else Some (string_take (Z.to_nat (Z.min count (size s - pos)))
                         (string_drop (Z.to_nat pos) s)).

(** ** parseIniFile *)

(** The two sides of the assignment in the [getline] loop:
    [line.substr(0, line.find('='))] and [line.substr(line.find('=') + 1)]. *)
Definition line_key (line : string) : option string :=
  substr line 0 (find "=" line).

Definition line_value (line : string) : option string :=
  substr line (size_t_add (find "=" line) 1) npos.

(** One round of the [getline] loop: the body run on [line]. *)
Definition parse_line (line : string) (iniKeyValuePairs : gmap string string)
  : option (gmap string string) :=
  c ← string_at line 0;
  if bool_decide (c <> "#"%char) then
    key ← line_key line;
    value ← line_value line;
    Some (<[key := value]> iniKeyValuePairs)
  else Some iniKeyValuePairs.

Fixpoint parse_lines (lines : list string) (iniKeyValuePairs : gmap string string)
  : option (gmap string string) :=
  match lines with
  | [] => Some iniKeyValuePairs
  | line :: rest => parse_line line iniKeyValuePairs ≫= parse_lines rest
  end.

(** [iniKeyValuePairs[k]]: the stored value, the empty string when there is none. *)
Definition ini_value (iniKeyValuePairs : gmap string string) (k : string) : string :=
  default "" (iniKeyValuePairs !! k).

(** The global [config] before [parseIniFile] has run. *)
Definition config_initial : Config :=
  {| CompileOnStartup := false; UseGoogleSPIRV := false; GenerateMetaData := false;
     GLSLLangValidatorPath := ""; GLSLCPath := ""; ShaderSourcePath := "";
     SPIRVOutputPath := ""; SPIRVExt := ""; VSExt := ""; FSExt := "";
     CSExt := ""; GSExt := "" |}.

(** [parseIniFile], on the lines [getline] yields, updating [config]. *)
Definition parseIniFile (lines : list string) (config : Config) : option Config :=
  iniKeyValuePairs ← parse_lines lines ∅;
  Some {| CompileOnStartup := bool_decide (ini_value iniKeyValuePairs "compile_on_startup" = "true");
          UseGoogleSPIRV := bool_decide (ini_value iniKeyValuePairs "use_google_spirv" = "true");
          GenerateMetaData := GenerateMetaData config;
          GLSLLangValidatorPath := ini_value iniKeyValuePairs "glsl_lang_validator_path";
          GLSLCPath := ini_value iniKeyValuePairs "glsl_c_path";
          ShaderSourcePath := ini_value iniKeyValuePairs "shader_source_path";
          SPIRVOutputPath := ini_value iniKeyValuePairs "spirv_output_path";
          SPIRVExt := ini_value iniKeyValuePairs "spirv_ext";
          VSExt := ini_value iniKeyValuePairs "vs_ext";
          FSExt := ini_value iniKeyValuePairs "fs_ext";
          CSExt := ini_value iniKeyValuePairs "cs_ext";
          GSExt := ini_value iniKeyValuePairs "gs_ext" |}.

(** ** Global state *)

(** Data kept for each shader file that is being watched. *)
Record ShaderEntry := { LastWriteTime : file_time_type }.

(** The four globals: the two atomic flags, the first-iteration marker and
    the map of watched files. *)
Record globals := {
  sApplicationExit : bool;
  sRecompile : bool;
  sFirstIteration : bool;
  sShaderEntries : gmap string ShaderEntry
}.

Definition globals_initial : globals :=
  {| sApplicationExit := false; sRecompile := false; sFirstIteration := true;
     sShaderEntries := ∅ |}.

Definition set_sShaderEntries (m : gmap string ShaderEntry) (g : globals) : globals :=
  {| sApplicationExit := sApplicationExit g; sRecompile := sRecompile g;
     sFirstIteration := sFirstIteration g; sShaderEntries := m |}.

Definition set_sRecompile (b : bool) (g : globals) : globals :=
  {| sApplicationExit := sApplicationExit g; sRecompile := b;
     sFirstIteration := sFirstIteration g; sShaderEntries := sShaderEntries g |}.

Definition set_sFirstIteration (b : bool) (g : globals) : globals :=
  {| sApplicationExit := sApplicationExit g; sRecompile := sRecompile g;
     sFirstIteration := b; sShaderEntries := sShaderEntries g |}.

Definition set_sApplicationExit (b : bool) (g : globals) : globals :=
  {| sApplicationExit := b; sRecompile := sRecompile g;
     sFirstIteration := sFirstIteration g; sShaderEntries := sShaderEntries g |}.

(** ** The file system as one cycle sees it *)

(** What the program reads of one element [p] of [fs::directory_iterator]:
    its path, [fs::is_regular_file(p)] and [fs::last_write_time(p)]. *)
Record dir_entry := {
  entry_path : path;
  is_regular_file : bool;
  last_write_time : file_time_type
}.

(** The entries directly under each directory. *)
Abbreviation file_system := (path -> list dir_entry) (only parsing).

(** One call [compileShader(filename, extension)], logged with the path of
    the directory entry whose visit made it. *)
Record compile_call := {
  call_path : path;
  call_filename : string;
  call_ext : string
}.

(** How often the file [k] was compiled in a log of calls. *)
Definition count_calls (k : path) (calls : list compile_call) : nat :=
  length (filter (fun c => call_path c = k) calls).

(** The calls made for the file [k] in a log of calls. *)
Definition calls_for (k : path) (calls : list compile_call) : list compile_call :=
  filter (fun c => call_path c = k) calls.

(** The strings handed to [system] by a log of calls. *)
Definition system_log (t : target) (config : Config) (calls : list compile_call)
  : list string :=
  map (fun c => compileShader t config (call_filename c) (call_ext c)) calls.

(** ** watchShaders *)

Section Watch.
Context `{FsLibrary}.
Variable config : Config.

(** The call the loop body makes for the entry [p], when it makes one:
    [compileShader(filename, extension)]. *)
Definition call_of (p : dir_entry) : compile_call :=
  let filename := stem (entry_path p) in
  let extension := extension (entry_path p) in
  {| call_path := entry_path p; call_filename := filename; call_ext := extension |}.

(** [validFileExts] and the [std::find] over it. *)
Definition validFileExts : list string :=
  [VSExt config; FSExt config; GSExt config; CSExt config].

Definition is_valid_ext (ext : string) : bool :=
  bool_decide (ext ∈ validFileExts).

(** The body of the [for] loop, for the entry [p]. The two [std::time_t]
    values are integers; their difference is taken without overflow. *)
Definition visit (g : globals) (p : dir_entry) : globals * list compile_call :=
  if is_regular_file p then
    let extension := extension (entry_path p) in
    let call := call_of p in
    if is_valid_ext extension then
      match sShaderEntries g !! entry_path p with
      | Some known =>
          let currFileTimeType := last_write_time p in
          let lastWriteTime := to_time_t (LastWriteTime known) in
          let currentWriteTime := to_time_t currFileTimeType in
          if bool_decide (currentWriteTime - lastWriteTime > 1) || sRecompile g then
            (set_sShaderEntries
               (<[entry_path p := {| LastWriteTime := currFileTimeType |}]> (sShaderEntries g)) g,
             [call])
          else (g, [])
      | None =>
          let g' := set_sShaderEntries
                      (<[entry_path p := {| LastWriteTime := last_write_time p |}]>
                         (sShaderEntries g)) g in
          if negb (sFirstIteration g) || CompileOnStartup config then (g', [call])
          else (g', [])
      end
    else (g, [])
  else (g, []).

(** The stored time of [p] is at most one second behind its modification
    time. *)
Definition settled (m : gmap string ShaderEntry) (p : dir_entry) : Prop :=
  is_regular_file p = true ->
  is_valid_ext (extension (entry_path p)) = true ->
  exists known, m !! entry_path p = Some known /\
    ~ to_time_t (last_write_time p) - to_time_t (LastWriteTime known) > 1.

(** The [for] loop over the entries of the directory. *)
Fixpoint scan (g : globals) (entries : list dir_entry) : globals * list compile_call :=
  match entries with
  | [] => (g, [])
  | p :: rest =>
      let '(g1, calls1) := visit g p in
      let '(g2, calls2) := scan g1 rest in
      (g2, (calls1 ++ calls2)%list)
  end.

(** One round of the [while] loop of [watchShaders(path)]: the scan, then
    both markers cleared. *)
Definition cycle (fsys : file_system) (watched : path) (g : globals)
  : globals * list compile_call :=
  let '(g1, calls) := scan g (fsys watched) in
  (set_sRecompile false (set_sFirstIteration false g1), calls).

End Watch.

(** ** The command prompt of [main] *)

(** The body of the [getline(std::cin, line)] loop; the result says whether
    the loop goes on ([break] after a quit command). *)
Definition command (line : string) (g : globals) : globals * bool :=
  if bool_decide (line = "-q" \/ line = "-quit" \/ line = "quit" \/ line = "exit") then
    (set_sApplicationExit true g, false)
  else if bool_decide (line = "-r" \/ line = "-recompile") then
    (set_sRecompile true g, true)
  else (g, true).

(** ** The two threads together *)

(** What happens next: the watcher thread tests its loop condition and, when
    it holds, runs one round on the file system as it is then; or the main
    thread reads one line; or its [getline] fails at the end of the input. *)
Inductive event :=
  | Tick (fsys : file_system)
  | Input (line : string)
  | InputEnd.

(** The program after the watcher thread has been started: the globals,
    whether the prompt still reads lines, and the calls of [compileShader]
    made so far. A round of the watcher is one step: lines are read between
    rounds. *)
Record running := {
  the_globals : globals;
  prompt_open : bool;
  compiled : list compile_call
}.

Definition running_initial : running :=
  {| the_globals := globals_initial; prompt_open := true; compiled := [] |}.

(** After a quit command nothing moves any more. *)
Definition stopped (r : running) : Prop :=
  sApplicationExit (the_globals r) = true /\ prompt_open r = false.

(** With the prompt closed and no quit seen, the watcher goes on for good. *)
Definition unattended (r : running) : Prop :=
  sApplicationExit (the_globals r) = false /\ prompt_open r = false.

Section Run.
Context `{FsLibrary}.
Variable config : Config.
Variable watched : path.

Definition step (r : running) (e : event) : running :=
  match e with
  | Tick fsys =>
      if sApplicationExit (the_globals r) then r
      else
        let '(g, calls) := cycle config fsys watched (the_globals r) in
        {| the_globals := g; prompt_open := prompt_open r;
           compiled := (compiled r ++ calls)%list |}
  | Input line =>
      if prompt_open r then
        let '(g, open) := command line (the_globals r) in
        {| the_globals := g; prompt_open := open; compiled := compiled r |}
      else r
  | InputEnd =>
      {| the_globals := the_globals r; prompt_open := false; compiled := compiled r |}
  end.

Definition run (r : running) (events : list event) : running :=
  fold_left step events r.

(** Only paths with a recognized extension are keys of [sShaderEntries] or
    were ever compiled. *)
Definition recognized_only (r : running) : Prop :=
  (forall k, is_Some (sShaderEntries (the_globals r) !! k) ->
             is_valid_ext config (extension k) = true) /\
  (forall c, c ∈ compiled r -> is_valid_ext config (extension (call_path c)) = true).

End Run.

(** ** main, up to the start of the watcher thread *)

(** The condition of the [if] that picks the directory to create: true when
    the output path is taken as relative. The three comparisons run left to
    right and stop at the first false one; [None] when a read is undefined. *)
Definition output_path_is_relative (SPIRVOutputPath : string) : option bool :=
  c0 ← string_at SPIRVOutputPath 0;
  if bool_decide (c0 <> "/"%char) then
    c0' ← string_at SPIRVOutputPath 0;
    if bool_decide (c0' <> "\"%char) then
      c1 ← string_at SPIRVOutputPath 1;
      Some (bool_decide (c1 <> ":"%char))
    else Some false
  else Some false.

(** What the condition tests on a path that is not empty: whether it starts
    with '/' or a backslash, or has ':' as its second character. *)
Definition looks_absolute (s : string) : bool :=
  match s with
  | EmptyString => false
  | String c rest =>
      Ascii.eqb c "/" || Ascii.eqb c "\" ||
      match rest with
      | EmptyString => false
      | String d _ => Ascii.eqb d ":"
      end
  end.

(** The argument of [fs::create_directory]. *)
Inductive created_directory :=
  | BelowCurrentPath (current : path) (sub : string)
  | AsConfigured (p : string).

Inductive startup :=
  | Returned (code : Z)
  | Thrown
  | Undefined
  | Watching (config : Config) (created : created_directory) (watched : path).

(** What a call of [fs::create_directory] does: it returns (the directory
    was made, or was there already), or it throws [fs::filesystem_error] (a
    missing parent directory, no permission). *)
Inductive create_outcome := DirectoryReady | CreateThrows.

(** [main] up to the start of the watcher thread. [currentPath] is what
    [fs::current_path()] gives, [None] when it throws (the working directory
    does not change in between, so both calls give the same); [ini] holds
    the lines of shaderassist.ini, [None] when the file cannot be opened;
    [create_directory] says what [fs::create_directory] does with its
    argument. Nothing in [main] catches an exception: one that is thrown
    ends the program. *)
Definition main (currentPath : option path) (ini : option (list string))
    (create_directory : created_directory -> create_outcome) : startup :=
  match currentPath with
  | None => Thrown
  | Some currentPath =>
      match ini with
      | None => Returned 1
      | Some lines =>
          match parseIniFile lines config_initial with
          | None => Thrown
          | Some config =>
              match output_path_is_relative (SPIRVOutputPath config) with
              | None => Undefined
              | Some relative =>
                  let spirvPath :=
                    if relative
                    then BelowCurrentPath currentPath (SPIRVOutputPath config)
                    else AsConfigured (SPIRVOutputPath config) in
                  match create_directory spirvPath with
                  | CreateThrows => Thrown
                  | DirectoryReady => Watching config spirvPath currentPath
                  end
              end
          end
      end
  end.

(** ** A library instance to run the model on

    The C++17 rules for [stem] and [extension] on '/'-separated paths, and a
    file clock that ticks in nanoseconds. *)

Fixpoint path_filename (p : string) : string :=
  match p with
  | EmptyString => EmptyString
  | String c p' =>
      if occurs "/" p' then path_filename p'
      else if Ascii.eqb c "/" then p' else p
  end.

Fixpoint from_last_dot (s : string) : string :=
  match s with
  | EmptyString => EmptyString
  | String c s' =>
      if occurs "." s' then from_last_dot s'
      else if Ascii.eqb c "." then s else EmptyString
  end.

Definition cxx17_extension (p : path) : string :=
  let f := path_filename p in
  if bool_decide (f = "." \/ f = "..") then ""
  else match f with
       | EmptyString => ""
       | String _ f' => from_last_dot f'
       end.

Definition cxx17_stem (p : path) : string :=
  let f := path_filename p in
  string_take (String.length f - String.length (cxx17_extension p)) f.

Definition nanoseconds_to_time_t (t : file_time_type) : Z := Z.quot t 1000000000.

Definition cxx17_library : FsLibrary :=
  {| stem := cxx17_stem; extension := cxx17_extension;
     to_time_t := nanoseconds_to_time_t |}.

(** The configuration of the README's default set-up with the glslang
    compiler selected. *)
Definition sample_ini : list string :=
  [ "# ShaderAssist configuration";
    "compile_on_startup=false";
    "use_google_spirv=false";
    "glsl_lang_validator_path=glslangValidator";
    "glsl_c_path=glslc";
    "shader_source_path=/home/dev/shaders";
    "spirv_output_path=spirv";
    "spirv_ext=.spv";
    "vs_ext=.vert";
    "fs_ext=.frag";
    "gs_ext=.geom";
    "cs_ext=.comp" ].

Definition sample_config : Config :=
  {| CompileOnStartup := false; UseGoogleSPIRV := false; GenerateMetaData := false;
     GLSLLangValidatorPath := "glslangValidator"; GLSLCPath := "glslc";
     ShaderSourcePath := "/home/dev/shaders"; SPIRVOutputPath := "spirv";
     SPIRVExt := ".spv"; VSExt := ".vert"; FSExt := ".frag";
     CSExt := ".comp"; GSExt := ".geom" |}.

(** A file system in which every directory can be created. *)
Definition always_ready : created_directory -> create_outcome :=
  fun _ => DirectoryReady.

(** A file system in which [spirv_output_path=build/spirv] names a
    directory whose parent is missing. *)
Definition parent_missing : created_directory -> create_outcome :=
  fun d =>
    match d with
    | BelowCurrentPath _ sub => if bool_decide (sub = "build/spirv") then CreateThrows
                                else DirectoryReady
    | AsConfigured _ => DirectoryReady
    end.

Definition sample_directory : list dir_entry :=
  [ {| entry_path := "/home/dev/project/basic.vert"; is_regular_file := true;
       last_write_time := 5000000000 |};
    {| entry_path := "/home/dev/project/basic.frag"; is_regular_file := true;
       last_write_time := 7000000000 |};
    {| entry_path := "/home/dev/project/notes.txt"; is_regular_file := true;
       last_write_time := 9000000000 |};
    {| entry_path := "/home/dev/project/spirv"; is_regular_file := false;
       last_write_time := 9000000000 |} ].

Definition sample_fs : path -> list dir_entry :=
  fun d => if bool_decide (d = "/home/dev/project") then sample_directory else [].

(** A file system whose only shader lies in the configured source directory. *)
Definition shaders_fs : path -> list dir_entry :=
  fun d =>
    if bool_decide (d = "/home/dev/shaders") then
      [ {| entry_path := "/home/dev/shaders/basic.vert"; is_regular_file := true;
           last_write_time := 5000000000 |} ]
    else [].

(** The sample directory after [basic.vert] was written again two seconds
    later. *)
Definition touched_fs : path -> list dir_entry :=
  fun d =>
    if bool_decide (d = "/home/dev/project") then
      [ {| entry_path := "/home/dev/project/basic.vert"; is_regular_file := true;
           last_write_time := 7000000000 |};
        {| entry_path := "/home/dev/project/basic.frag"; is_regular_file := true;
           last_write_time := 7000000000 |} ]
    else [].

(** The sample configuration with compile-on-startup and the Google
    compiler switched on. *)
Definition sample_config_startup : Config :=
  {| CompileOnStartup := true; UseGoogleSPIRV := true; GenerateMetaData := false;
     GLSLLangValidatorPath := "glslangValidator"; GLSLCPath := "glslc";
     ShaderSourcePath := "/home/dev/shaders"; SPIRVOutputPath := "spirv";
     SPIRVExt := ".spv"; VSExt := ".vert"; FSExt := ".frag";
     CSExt := ".comp"; GSExt := ".geom" |}.

(** [basic.vert] stored at 2.0 s, and the file as it is found at
    3.999999999 s. *)
Definition sample_stored_2s : globals :=
  {| sApplicationExit := false; sRecompile := false; sFirstIteration := false;
     sShaderEntries := {[ "/home/dev/project/basic.vert" := {| LastWriteTime := 2000000000 |} ]} |}.

Definition sample_vert_almost_4s : dir_entry :=
  {| entry_path := "/home/dev/project/basic.vert"; is_regular_file := true;
     last_write_time := 3999999999 |}.

Definition sample_tracked : globals :=
  {| sApplicationExit := false; sRecompile := false; sFirstIteration := false;
     sShaderEntries := {[ "/home/dev/project/basic.vert" := {| LastWriteTime := 2500000000 |} ]} |}.

Definition sample_vert : dir_entry :=
  {| entry_path := "/home/dev/project/basic.vert"; is_regular_file := true;
     last_write_time := 5000000000 |}.



Definition sample_forced : globals :=
  {| sApplicationExit := false; sRecompile := true; sFirstIteration := false;
     sShaderEntries :=
       {[ "/home/dev/project/basic.vert" := {| LastWriteTime := 5000000000 |};
          "/home/dev/project/basic.frag" := {| LastWriteTime := 7000000000 |} ]} |}.

Definition config_same_ext : Config :=
  {| CompileOnStartup := true; UseGoogleSPIRV := true; GenerateMetaData := false;
     GLSLLangValidatorPath := "glslangValidator"; GLSLCPath := "glslc";
     ShaderSourcePath := ""; SPIRVOutputPath := "spirv";
     SPIRVExt := ".spv"; VSExt := ".vert"; FSExt := ".vert";
     CSExt := ".vert"; GSExt := ".vert" |}.

Definition sample_events : list event :=
  [ Tick sample_fs; Input "-r"; Tick sample_fs; Input "help"; Tick sample_fs ].

(** * Properties *)

(** ** The command line *)

Lemma compileShader_command_alternate config filename ext :
  UseGoogleSPIRV config = true ->
  compileShader_command config filename ext = spec_alternate_command config filename ext.
Proof. intros Hsel. unfold compileShader_command. now rewrite Hsel. Qed.

Lemma string_app_inv_head (a b c : string) : a +:+ b = a +:+ c -> b = c.
Proof.
  induction a as [|x a IH]; simpl; [easy|].
  intros Heq. apply IH. now injection Heq.
Qed.

(** With the glslang compiler selected the command never has the form the
    specification gives: after the validator path comes " - V ", not " -V ". *)
Lemma compileShader_command_primary_never config filename ext :
  UseGoogleSPIRV config = false ->
  compileShader_command config filename ext <> spec_primary_command config filename ext.
Proof.
  intros Hsel. unfold compileShader_command, spec_primary_command. rewrite Hsel.
  intros Heq. apply string_app_inv_head in Heq. simpl in Heq. discriminate Heq.
Qed.

(** C2: with the primary compiler selected, the command built for
    [basic.vert] under the sample configuration is
    [glslangValidator - V basic.vert -o spirv/basic.vert.spv]; the form
    [<validatorPath> -V <basename><ext> -o ...] that the specification gives
    is a different string. *)
Theorem compileShader_primary_at_sample :
  UseGoogleSPIRV sample_config = false /\
  compileShader_command sample_config "basic" ".vert"
    = "glslangValidator - V basic.vert -o spirv/basic.vert.spv" /\
  spec_primary_command sample_config "basic" ".vert"
    = "glslangValidator -V basic.vert -o spirv/basic.vert.spv" /\
  compileShader_command sample_config "basic" ".vert"
    <> spec_primary_command sample_config "basic" ".vert".
Proof.
  split; [reflexivity|]. split; [reflexivity|]. split; [reflexivity|].
  apply compileShader_command_primary_never. reflexivity.
Qed.

(** ** Reading the output path *)

Lemma size_nonneg s : 0 <= size s.
Proof. unfold size. lia. Qed.

Lemma size_String c s : size (String c s) = size s + 1.
Proof. unfold size. simpl. lia. Qed.

Lemma string_at_0_String c s : string_at (String c s) 0 = Some c.
Proof.
  unfold string_at. pose proof (size_nonneg s). rewrite size_String.
  case_bool_decide; [reflexivity | lia].
Qed.

Lemma string_at_0_empty : string_at "" 0 = Some Ascii.zero.
Proof. reflexivity. Qed.

Lemma string_at_0_defined s : is_Some (string_at s 0).
Proof.
  destruct s; [rewrite string_at_0_empty | rewrite string_at_0_String]; eauto.
Qed.

Lemma string_at_1_String c s : string_at (String c s) 1 = string_at s 0.
Proof.
  destruct s as [|d s].
  - reflexivity.
  - rewrite string_at_0_String. unfold string_at.
    pose proof (size_nonneg s). rewrite !size_String.
    case_bool_decide; [reflexivity | lia].
Qed.

(** The classification reads inside the string (its terminating null
    included) exactly when the string is not empty. *)
Lemma output_path_is_relative_defined s :
  is_Some (output_path_is_relative s) <-> s <> "".
Proof.
  split.
  - intros [b Hb] ->. vm_compute in Hb. discriminate Hb.
  - intros Hne. destruct s as [|c s]; [congruence|].
    unfold output_path_is_relative. rewrite string_at_0_String. simpl.
    case_bool_decide; [|eauto]. case_bool_decide; [|eauto].
    rewrite string_at_1_String.
    destruct (string_at_0_defined s) as [d ->]. simpl. eauto.
Qed.

(** C9: for the empty output path (the value a missing [spirv_output_path]
    key leaves) the classification reads index 1 of a string of size 0, which
    is undefined; a configuration file without the key brings [main] there,
    before any directory is created. *)
Theorem output_path_read_out_of_bounds :
  string_at "" 1 = None /\
  output_path_is_relative "" = None /\
  SPIRVOutputPath <$> parseIniFile ["use_google_spirv=true"] config_initial = Some "" /\
  forall create_directory,
    main (Some "/home/dev/project") (Some ["use_google_spirv=true"]) create_directory
    = Undefined.
Proof.
  split; [reflexivity|]. split; [reflexivity|]. split; [vm_compute; reflexivity|].
  intros create_directory. reflexivity.
Qed.

(** ** The watched directory *)

Lemma main_watches_current_path currentPath ini create_directory config created watched :
  main currentPath ini create_directory = Watching config created watched ->
  currentPath = Some watched.
Proof.
  unfold main. intros Hmain.
  repeat case_match; simplify_eq; reflexivity.
Qed.

Lemma cycle_reads_watched_only `{FsLibrary} config fsys1 fsys2 watched g :
  fsys1 watched = fsys2 watched ->
  cycle config fsys1 watched g = cycle config fsys2 watched g.
Proof. intros Hsame. unfold cycle. now rewrite Hsame. Qed.

(** C1: with [shader_source_path=/home/dev/shaders] in the configuration
    file and the program started in [/home/dev/project], the watcher is
    handed [/home/dev/project]: the configured source path is stored in the
    configuration and the scan runs over another directory, so a shader in
    the configured directory is neither tracked nor compiled. *)
Theorem main_ignores_shader_source_path :
  main (Some "/home/dev/project") (Some sample_ini) always_ready
    = Watching sample_config (BelowCurrentPath "/home/dev/project" "spirv")
               "/home/dev/project" /\
  ShaderSourcePath sample_config = "/home/dev/shaders" /\
  "/home/dev/project" <> ShaderSourcePath sample_config /\
  @run cxx17_library sample_config "/home/dev/project" running_initial
       [Tick shaders_fs; Tick shaders_fs]
  = {| the_globals := set_sFirstIteration false globals_initial;
       prompt_open := true; compiled := [] |}.
Proof.
  split; [vm_compute; reflexivity|]. split; [reflexivity|].
  split; [discriminate | vm_compute; reflexivity].
Qed.

(** ** Parsing the configuration file *)

Lemma string_take_all s : string_take (String.length s) s = s.
Proof. induction s as [|c s IH]; simpl; [reflexivity | now rewrite IH]. Qed.

Lemma string_drop_0 s : string_drop 0 s = s.
Proof. now destruct s. Qed.

Lemma substr_whole s count : size s <= count -> substr s 0 count = Some s.
Proof.
  intros Hle. unfold substr. pose proof (size_nonneg s).
  case_bool_decide; [lia|].
  rewrite string_drop_0, Z.sub_0_r, Z.min_r by lia.
  unfold size. now rewrite Nat2Z.id, string_take_all.
Qed.

Lemma find_from_range c s i :
  find_from c s i = npos \/ i <= find_from c s i < i + size s.
Proof.
  revert i. induction s as [|a s IH]; intros i; simpl; [now left|].
  rewrite size_String. pose proof (size_nonneg s).
  destruct (Ascii.eqb a c); [right; lia|].
  destruct (IH (i + 1)) as [Hn|Hr]; [now left | right; lia].
Qed.

Lemma find_from_absent c s i : occurs c s = false -> find_from c s i = npos.
Proof.
  revert i. induction s as [|a s IH]; intros i; simpl; [reflexivity|].
  destruct (Ascii.eqb a c); simpl; [discriminate | auto].
Qed.

Lemma size_t_add_npos_1 : size_t_add npos 1 = 0.
Proof. reflexivity. Qed.

Lemma line_key_total line : is_Some (line_key line).
Proof.
  unfold line_key, substr. pose proof (size_nonneg line).
  case_bool_decide; [lia | eauto].
Qed.

Lemma line_value_total line : is_Some (line_value line).
Proof.
  unfold line_value, substr, size_t_add, find.
  pose proof (size_nonneg line).
  destruct (find_from_range "=" line 0) as [->|Hr].
  - change ((npos + 1) mod size_t_modulus) with 0.
    case_bool_decide; [lia | eauto].
  - assert ((find_from "=" line 0 + 1) mod size_t_modulus <= find_from "=" line 0 + 1).
    { apply Z.mod_le; [lia | reflexivity]. }
    case_bool_decide; [lia | eauto].
Qed.

(** No line makes the parser throw. *)
Lemma parse_line_total line m : is_Some (parse_line line m).
Proof.
  unfold parse_line.
  destruct (string_at_0_defined line) as [c ->]. simpl.
  case_bool_decide; [|eauto].
  destruct (line_key_total line) as [k ->].
  destruct (line_value_total line) as [v ->]. simpl. eauto.
Qed.

Lemma parse_lines_total lines m : is_Some (parse_lines lines m).
Proof.
  revert m. induction lines as [|line rest IH]; intros m; simpl; [eauto|].
  destruct (parse_line_total line m) as [m' ->]. simpl. apply IH.
Qed.

Lemma parseIniFile_total lines config : is_Some (parseIniFile lines config).
Proof.
  unfold parseIniFile. destruct (parse_lines_total lines ∅) as [m ->]. simpl. eauto.
Qed.

(** C8 as stated fails: the line [vs_ext] has no '=', and the value stored
    for it is the line itself ([find] yields [npos], and [npos + 1] wraps
    around to 0), which then becomes the vertex shader extension. *)
Lemma line_without_equals_value_not_empty :
  occurs "=" "vs_ext" = false /\
  line_value "vs_ext" = Some "vs_ext" /\
  parse_line "vs_ext" ∅ = Some {[ "vs_ext" := "vs_ext" ]} /\
  VSExt <$> parseIniFile ["vs_ext"] config_initial = Some "vs_ext" /\
  line_value "vs_ext" <> Some "".
Proof. repeat split; try (vm_compute; reflexivity). discriminate. Qed.

(** C8, amended: a line without '=' (of a size a [std::string] can have)
    never makes the parser fail; unless it starts with '#' (then nothing is
    stored) the whole line is stored as the key and as the value, so the
    value is empty only for the empty line. *)
Theorem parse_line_without_equals line m :
  occurs "=" line = false ->
  size line <= npos ->
  line_value line = Some line /\
  parse_line line m
    = Some (if bool_decide (string_at line 0 = Some "#"%char) then m
            else <[line := line]> m).
Proof.
  intros Hno Hsz.
  assert (Hval : line_value line = Some line).
  { unfold line_value, find. rewrite (find_from_absent _ _ _ Hno), size_t_add_npos_1.
    now apply substr_whole. }
  split; [exact Hval|].
  unfold parse_line, line_key. rewrite Hval. unfold find.
  rewrite (find_from_absent _ _ _ Hno), (substr_whole _ _ Hsz).
  destruct (string_at_0_defined line) as [c ->]. simpl.
  repeat case_bool_decide; simplify_eq; try reflexivity; congruence.
Qed.

Lemma parse_line_without_equals_witness :
  line_value "fs_ext" = Some "fs_ext" /\
  parse_line "fs_ext" ∅
    = Some (if bool_decide (string_at "fs_ext" 0 = Some "#"%char) then ∅
            else <["fs_ext" := "fs_ext"]> ∅).
Proof.
  apply (parse_line_without_equals "fs_ext" ∅); [reflexivity | vm_compute; discriminate].
Defined.

(** ** One visit *)

Section WatchFacts.
Context `{FsLibrary}.
Variable config : Config.

Ltac visit_cases := unfold visit; repeat case_match; simpl in *.

Lemma visit_flags g p :
  sApplicationExit (visit config g p).1 = sApplicationExit g /\
  sRecompile (visit config g p).1 = sRecompile g /\
  sFirstIteration (visit config g p).1 = sFirstIteration g.
Proof. visit_cases; auto. Qed.

Lemma visit_lookup_other g p k :
  k <> entry_path p ->
  sShaderEntries (visit config g p).1 !! k = sShaderEntries g !! k.
Proof. intros Hne. visit_cases; rewrite ?lookup_insert_ne; auto. Qed.

Lemma visit_calls g p c :
  c ∈ (visit config g p).2 ->
  c = call_of p /\ is_regular_file p = true /\
  is_valid_ext config (extension (entry_path p)) = true.
Proof.
  visit_cases; intros Hin; try (apply elem_of_nil in Hin; contradiction);
    apply list_elem_of_singleton in Hin; auto.
Qed.

(** A visit reads the globals through the flags and the entry of its own
    path only. *)
Lemma visit_local g g0 p :
  sRecompile g = sRecompile g0 ->
  sFirstIteration g = sFirstIteration g0 ->
  sShaderEntries g !! entry_path p = sShaderEntries g0 !! entry_path p ->
  (visit config g p).2 = (visit config g0 p).2 /\
  sShaderEntries (visit config g p).1 !! entry_path p
    = sShaderEntries (visit config g0 p).1 !! entry_path p.
Proof.
  intros Hr Hf Hl. unfold visit. rewrite Hr, Hf, Hl.
  repeat case_match; simpl; rewrite ?lookup_insert_eq; split; congruence.
Qed.

(** A key that a visit adds is the path of the visited entry, a regular
    file with one of the four extensions. *)
Lemma visit_inserts g p k :
  sShaderEntries g !! k = None ->
  is_Some (sShaderEntries (visit config g p).1 !! k) ->
  k = entry_path p /\ is_regular_file p = true /\
  is_valid_ext config (extension (entry_path p)) = true.
Proof.
  intros Hnone Hsome.
  destruct (decide (k = entry_path p)) as [->|Hne].
  - revert Hsome. visit_cases; intros [x Hx]; auto; congruence.
  - rewrite visit_lookup_other, Hnone in Hsome by done.
    destruct Hsome as [x Hx]. discriminate Hx.
Qed.

Lemma visit_keeps g p k :
  is_Some (sShaderEntries g !! k) ->
  is_Some (sShaderEntries (visit config g p).1 !! k).
Proof.
  intros Hsome.
  destruct (decide (k = entry_path p)) as [->|Hne].
  - visit_cases; rewrite ?lookup_insert_eq; eauto.
  - now rewrite visit_lookup_other.
Qed.

End WatchFacts.

(** ** Tracked files *)

Lemma visit_tracked_eq `{FsLibrary} config g p known :
  is_regular_file p = true ->
  is_valid_ext config (extension (entry_path p)) = true ->
  sShaderEntries g !! entry_path p = Some known ->
  visit config g p
  = if bool_decide (to_time_t (last_write_time p) - to_time_t (LastWriteTime known) > 1)
       || sRecompile g
    then (set_sShaderEntries
            (<[entry_path p := {| LastWriteTime := last_write_time p |}]> (sShaderEntries g)) g,
          [call_of p])
    else (g, []).
Proof. intros Hreg Hext Hknown. unfold visit. now rewrite Hreg, Hext, Hknown. Qed.

(** C3 as stated fails when the clock is finer than a second: with
    [basic.vert] stored at 2.0 s and found modified at 3.999999999 s, the
    elapsed time exceeds one second and no recompile is forced, yet the visit
    compiles nothing and keeps the stored time, because both times are cut to
    whole seconds (2 and 3) before they are compared. *)
Lemma elapsed_over_a_second_not_compiled :
  last_write_time sample_vert_almost_4s - 2000000000 > 1000000000 /\
  sShaderEntries sample_stored_2s !! entry_path sample_vert_almost_4s
    = Some {| LastWriteTime := 2000000000 |} /\
  sRecompile sample_stored_2s = false /\
  @visit cxx17_library sample_config sample_stored_2s sample_vert_almost_4s
    = (sample_stored_2s, []) /\
  sShaderEntries
    (@visit cxx17_library sample_config sample_stored_2s sample_vert_almost_4s).1
    !! "/home/dev/project/basic.vert" = Some {| LastWriteTime := 2000000000 |}.
Proof. repeat split; vm_compute; reflexivity. Qed.

(** C3, amended: for a tracked file (a regular file with a recognized
    extension whose path is a key of [sShaderEntries]) a visit calls
    [compileShader] with the stem and the extension of the file and
    overwrites the stored time with the current modification time if and only
    if the current modification time in whole seconds is more than 1 above
    the stored time in whole seconds (both as [to_time_t] gives them), or
    [sRecompile] is set; otherwise it compiles nothing and the stored time is
    the one it was. *)
Theorem visit_tracked `{FsLibrary} config g p known :
  is_regular_file p = true ->
  is_valid_ext config (extension (entry_path p)) = true ->
  sShaderEntries g !! entry_path p = Some known ->
  let elapsed := to_time_t (last_write_time p) - to_time_t (LastWriteTime known) in
  let trigger := elapsed > 1 \/ sRecompile g = true in
  let call := {| call_path := entry_path p; call_filename := stem (entry_path p);
                 call_ext := extension (entry_path p) |} in
  (trigger <-> (visit config g p).2 = [call]) /\
  (trigger ->
   visit config g p
     = (set_sShaderEntries
          (<[entry_path p := {| LastWriteTime := last_write_time p |}]> (sShaderEntries g)) g,
        [call]) /\
   sShaderEntries (visit config g p).1 !! entry_path p
     = Some {| LastWriteTime := last_write_time p |}) /\
  (~ trigger ->
   visit config g p = (g, []) /\
   sShaderEntries (visit config g p).1 !! entry_path p = Some known).
Proof.
  intros Hreg Hext Hknown elapsed trigger call.
  assert (Hdec : bool_decide (elapsed > 1) || sRecompile g = true <-> trigger).
  { unfold trigger. rewrite orb_true_iff, bool_decide_eq_true. tauto. }
  rewrite (visit_tracked_eq config g p known Hreg Hext Hknown). fold elapsed.
  change (call_of p) with call.
  destruct (bool_decide (elapsed > 1) || sRecompile g) eqn:Hb; simpl.
  - assert trigger by now apply Hdec.
    rewrite lookup_insert_eq. repeat split; tauto.
  - assert (~ trigger) by (rewrite <- Hdec; congruence).
    repeat split; try tauto; discriminate.
Qed.

Lemma visit_tracked_witness :
  (@visit cxx17_library sample_config sample_tracked sample_vert).2
  = [ {| call_path := "/home/dev/project/basic.vert"; call_filename := "basic";
         call_ext := ".vert" |} ] /\
  sShaderEntries (@visit cxx17_library sample_config sample_tracked sample_vert).1
    !! "/home/dev/project/basic.vert" = Some {| LastWriteTime := 5000000000 |} /\
  system_log Unix sample_config
    (@visit cxx17_library sample_config sample_tracked sample_vert).2
  = [ "glslangValidator - V basic.vert -o spirv/basic.vert.spv > /dev/null" ].
Proof.
  destruct (@visit_tracked cxx17_library sample_config sample_tracked sample_vert
              {| LastWriteTime := 2500000000 |})
    as (_ & Hyes & _); [reflexivity | reflexivity | reflexivity |].
  destruct Hyes as [Hvisit Hstored]; [left; vm_compute; reflexivity|].
  split; [|split; [exact Hstored|]].
  - rewrite Hvisit. reflexivity.
  - rewrite Hvisit. reflexivity.
Defined.

(** ** Files without an extension *)

Lemma parse_lines_absent k lines m m' :
  parse_lines lines m = Some m' ->
  (forall line, line ∈ lines -> line_key line <> Some k) ->
  m' !! k = m !! k.
Proof.
  revert m. induction lines as [|line rest IH]; intros m Hparse Habsent; simpl in Hparse.
  - now simplify_eq.
  - destruct (parse_line line m) as [m1|] eqn:Hline; [|discriminate]. simpl in Hparse.
    rewrite (IH m1 Hparse) by (intros l Hl; apply Habsent; now right).
    assert (Hk : line_key line <> Some k) by (apply Habsent; now left).
    unfold parse_line in Hline.
    destruct (string_at line 0) as [c|]; [|discriminate]. simpl in Hline.
    case_bool_decide; [|now simplify_eq].
    destruct (line_key line) as [key|]; [|discriminate].
    destruct (line_value line) as [value|]; [|discriminate]. simpl in Hline.
    simplify_eq. apply lookup_insert_ne. congruence.
Qed.

(** A key that no line of the file stores is read back as the empty string. *)
Lemma ini_value_absent k lines m :
  parse_lines lines ∅ = Some m ->
  (forall line, line ∈ lines -> line_key line <> Some k) ->
  ini_value m k = "".
Proof.
  intros Hparse Habsent. unfold ini_value.
  now rewrite (parse_lines_absent k lines ∅ m Hparse Habsent), lookup_empty.
Qed.




(** ** One scan *)

Section ScanFacts.
Context `{FsLibrary}.
Variable config : Config.

Lemma scan_cons g p rest :
  scan config g (p :: rest)
  = ((scan config (visit config g p).1 rest).1,
     ((visit config g p).2 ++ (scan config (visit config g p).1 rest).2)%list).
Proof.
  simpl. destruct (visit config g p) as [g1 calls1]. simpl.
  now destruct (scan config g1 rest) as [g2 calls2].
Qed.

Lemma scan_flags g entries :
  sApplicationExit (scan config g entries).1 = sApplicationExit g /\
  sRecompile (scan config g entries).1 = sRecompile g /\
  sFirstIteration (scan config g entries).1 = sFirstIteration g.
Proof.
  revert g. induction entries as [|p rest IH]; intros g; [now simpl|].
  rewrite scan_cons. simpl.
  destruct (IH (visit config g p).1) as (-> & -> & ->). apply visit_flags.
Qed.

Lemma scan_lookup_other g entries k :
  k ∉ entry_path <$> entries ->
  sShaderEntries (scan config g entries).1 !! k = sShaderEntries g !! k.
Proof.
  revert g. induction entries as [|p rest IH]; intros g Hnot; [now simpl|].
  rewrite fmap_cons, not_elem_of_cons in Hnot. destruct Hnot as [Hne Hrest].
  rewrite scan_cons. simpl. rewrite IH by done. now apply visit_lookup_other.
Qed.

Lemma scan_calls g entries c :
  c ∈ (scan config g entries).2 ->
  exists p, p ∈ entries /\ c = call_of p /\ is_regular_file p = true /\
            is_valid_ext config (extension (entry_path p)) = true.
Proof.
  revert g. induction entries as [|p rest IH]; intros g.
  - intros Hin. apply elem_of_nil in Hin. contradiction.
  - rewrite scan_cons. simpl. rewrite elem_of_app. intros [Hin|Hin].
    + exists p. split; [left | now apply (visit_calls config g)].
    + destruct (IH _ Hin) as (q & Hq & Hrest). exists q. split; [now right | exact Hrest].
Qed.

Lemma count_calls_app k calls1 calls2 :
  count_calls k (calls1 ++ calls2) = (count_calls k calls1 + count_calls k calls2)%nat.
Proof. unfold count_calls. now rewrite filter_app, length_app. Qed.

Lemma count_calls_absent k calls :
  (forall c, c ∈ calls -> call_path c <> k) -> count_calls k calls = 0%nat.
Proof.
  intros Hnot. unfold count_calls.
  induction calls as [|c rest IH]; [reflexivity|].
  rewrite filter_cons_False by (apply Hnot; left).
  apply IH. intros c' Hc'. apply Hnot. now right.
Qed.

Lemma count_calls_single p : count_calls (entry_path p) [call_of p] = 1%nat.
Proof. unfold count_calls. now rewrite filter_cons_True. Qed.

Lemma visit_count_other g p k :
  k <> entry_path p -> count_calls k (visit config g p).2 = 0%nat.
Proof.
  intros Hne. apply count_calls_absent. intros c Hc.
  apply visit_calls in Hc as (-> & _). simpl. congruence.
Qed.

Lemma scan_count_other g entries k :
  k ∉ entry_path <$> entries -> count_calls k (scan config g entries).2 = 0%nat.
Proof.
  intros Hnot. apply count_calls_absent. intros c Hc.
  apply scan_calls in Hc as (p & Hp & -> & _). simpl.
  intros <-. apply Hnot. now apply list_elem_of_fmap_2.
Qed.

(** In a directory that lists every path once, what a scan does for one
    entry is what a visit of that entry does in the globals the scan started
    from. *)
Lemma scan_at g entries p :
  NoDup (entry_path <$> entries) ->
  p ∈ entries ->
  count_calls (entry_path p) (scan config g entries).2
    = count_calls (entry_path p) (visit config g p).2 /\
  sShaderEntries (scan config g entries).1 !! entry_path p
    = sShaderEntries (visit config g p).1 !! entry_path p.
Proof.
  revert g. induction entries as [|q rest IH]; intros g Hnodup Hin.
  - apply elem_of_nil in Hin. contradiction.
  - rewrite fmap_cons, NoDup_cons in Hnodup. destruct Hnodup as [Hfresh Hnodup].
    rewrite scan_cons. simpl. rewrite count_calls_app.
    destruct (decide (entry_path q = entry_path p)) as [Heq|Hne].
    + assert (p = q) as ->.
      { apply elem_of_cons in Hin as [Hhead|Htail]; [exact Hhead|].
        exfalso. apply Hfresh. rewrite Heq. now apply list_elem_of_fmap_2. }
      rewrite scan_count_other, scan_lookup_other by done. split; [lia | reflexivity].
    + assert (Hrest : p ∈ rest).
      { apply elem_of_cons in Hin as [->|Htail]; [congruence | exact Htail]. }
      destruct (IH (visit config g q).1 Hnodup Hrest) as [-> ->].
      rewrite visit_count_other by congruence. simpl.
      destruct (visit_flags config g q) as (_ & Hr & Hf).
      assert (Hl : sShaderEntries (visit config g q).1 !! entry_path p
                   = sShaderEntries g !! entry_path p)
        by (apply visit_lookup_other; congruence).
      destruct (visit_local config _ g p Hr Hf Hl) as [-> ->]. now split.
Qed.

(** Keys are added by a scan only for regular files of the directory with a
    recognized extension, and are never removed. *)
Lemma scan_inserts g entries k :
  sShaderEntries g !! k = None ->
  is_Some (sShaderEntries (scan config g entries).1 !! k) ->
  exists p, p ∈ entries /\ k = entry_path p /\ is_regular_file p = true /\
            is_valid_ext config (extension (entry_path p)) = true.
Proof.
  revert g. induction entries as [|p rest IH]; intros g Hnone Hsome.
  - simpl in Hsome. rewrite Hnone in Hsome. destruct Hsome as [x Hx]. discriminate.
  - rewrite scan_cons in Hsome. simpl in Hsome.
    destruct (sShaderEntries (visit config g p).1 !! k) as [x|] eqn:Hvisit.
    + exists p. split; [left|]. apply (visit_inserts config g p k Hnone). rewrite Hvisit. eauto.
    + destruct (IH _ Hvisit Hsome) as (q & Hq & Hrest). exists q. split; [now right | exact Hrest].
Qed.

Lemma scan_keeps g entries k :
  is_Some (sShaderEntries g !! k) ->
  is_Some (sShaderEntries (scan config g entries).1 !! k).
Proof.
  revert g. induction entries as [|p rest IH]; intros g Hsome; [exact Hsome|].
  rewrite scan_cons. simpl. apply IH. now apply visit_keeps.
Qed.

End ScanFacts.

(** ** One cycle *)

Section CycleFacts.
Context `{FsLibrary}.
Variable config : Config.

Lemma cycle_eq fsys watched g :
  cycle config fsys watched g
  = (set_sRecompile false (set_sFirstIteration false (scan config g (fsys watched)).1),
     (scan config g (fsys watched)).2).
Proof. unfold cycle. now destruct (scan config g (fsys watched)). Qed.

Lemma cycle_entries fsys watched g :
  sShaderEntries (cycle config fsys watched g).1
  = sShaderEntries (scan config g (fsys watched)).1.
Proof. now rewrite cycle_eq. Qed.

Lemma cycle_clears fsys watched g :
  sRecompile (cycle config fsys watched g).1 = false /\
  sFirstIteration (cycle config fsys watched g).1 = false.
Proof. now rewrite cycle_eq. Qed.

(** Every key a cycle adds to [sShaderEntries] is the path of an entry of
    the scanned directory that was a regular file with a recognized
    extension when it was added. *)
Lemma cycle_inserts fsys watched g k :
  sShaderEntries g !! k = None ->
  is_Some (sShaderEntries (cycle config fsys watched g).1 !! k) ->
  exists p, p ∈ fsys watched /\ k = entry_path p /\ is_regular_file p = true /\
            is_valid_ext config (extension (entry_path p)) = true.
Proof. rewrite cycle_entries. apply scan_inserts. Qed.

Lemma visit_settles g p : settled config (sShaderEntries (visit config g p).1) p.
Proof.
  intros Hreg Hext. unfold visit. rewrite Hreg, Hext.
  destruct (sShaderEntries g !! entry_path p) as [known|] eqn:Hknown.
  - destruct (bool_decide (_ > 1)) eqn:Hgt; simpl.
    + eexists. rewrite lookup_insert_eq. split; [reflexivity | simpl; lia].
    + destruct (sRecompile g); simpl.
      * eexists. rewrite lookup_insert_eq. split; [reflexivity | simpl; lia].
      * exists known. split; [exact Hknown|]. now apply bool_decide_eq_false in Hgt.
  - assert (Hnew : forall b : bool,
      exists known,
        sShaderEntries
          (if b
           then (set_sShaderEntries
                   (<[entry_path p := {| LastWriteTime := last_write_time p |}]>
                      (sShaderEntries g)) g, [call_of p])
           else (set_sShaderEntries
                   (<[entry_path p := {| LastWriteTime := last_write_time p |}]>
                      (sShaderEntries g)) g, [])).1 !! entry_path p = Some known /\
        ~ to_time_t (last_write_time p) - to_time_t (LastWriteTime known) > 1).
    { intros b. eexists. destruct b; simpl; rewrite lookup_insert_eq;
        (split; [reflexivity | simpl; lia]). }
    apply Hnew.
Qed.

Lemma scan_settles g entries p :
  NoDup (entry_path <$> entries) -> p ∈ entries ->
  settled config (sShaderEntries (scan config g entries).1) p.
Proof.
  intros Hnodup Hin Hreg Hext.
  destruct (scan_at config g entries p Hnodup Hin) as [_ ->].
  now apply visit_settles.
Qed.

Lemma visit_settled g p :
  sRecompile g = false -> settled config (sShaderEntries g) p -> visit config g p = (g, []).
Proof.
  intros Hflag Hset. unfold visit.
  destruct (is_regular_file p) eqn:Hreg; [|reflexivity].
  destruct (is_valid_ext config (extension (entry_path p))) eqn:Hext; [|reflexivity].
  destruct (Hset Hreg Hext) as (known & -> & Hle).
  now rewrite Hflag, (bool_decide_eq_false_2 _ Hle).
Qed.

Lemma scan_settled g entries :
  sRecompile g = false ->
  (forall p, p ∈ entries -> settled config (sShaderEntries g) p) ->
  scan config g entries = (g, []).
Proof.
  intros Hflag. induction entries as [|p rest IH]; intros Hall; [reflexivity|].
  rewrite scan_cons, visit_settled; [|exact Hflag | apply Hall; left]. simpl.
  rewrite IH by (intros q Hq; apply Hall; now right). reflexivity.
Qed.

End CycleFacts.

(** ** The calls made for one file *)

Section CallsFacts.
Context `{FsLibrary}.
Variable config : Config.

Lemma calls_for_app k calls1 calls2 :
  calls_for k (calls1 ++ calls2) = (calls_for k calls1 ++ calls_for k calls2)%list.
Proof. unfold calls_for. apply filter_app. Qed.

Lemma calls_for_absent k calls :
  (forall c, c ∈ calls -> call_path c <> k) -> calls_for k calls = [].
Proof.
  intros Hnot. unfold calls_for.
  induction calls as [|c rest IH]; [reflexivity|].
  rewrite filter_cons_False by (apply Hnot; left).
  apply IH. intros c' Hc'. apply Hnot. now right.
Qed.

Lemma calls_for_single p : calls_for (entry_path p) [call_of p] = [call_of p].
Proof. unfold calls_for. now rewrite filter_cons_True. Qed.

Lemma visit_calls_for_other g p k :
  k <> entry_path p -> calls_for k (visit config g p).2 = [].
Proof.
  intros Hne. apply calls_for_absent. intros c Hc.
  apply visit_calls in Hc as (-> & _). simpl. congruence.
Qed.

Lemma scan_calls_for_other g entries k :
  k ∉ entry_path <$> entries -> calls_for k (scan config g entries).2 = [].
Proof.
  intros Hnot. apply calls_for_absent. intros c Hc.
  apply scan_calls in Hc as (p & Hp & -> & _). simpl.
  intros <-. apply Hnot. now apply list_elem_of_fmap_2.
Qed.

(** In a directory that lists every path once, the calls a scan makes for
    one entry are the calls a visit of that entry makes in the globals the
    scan started from. *)
Lemma scan_calls_at g entries p :
  NoDup (entry_path <$> entries) ->
  p ∈ entries ->
  calls_for (entry_path p) (scan config g entries).2
  = calls_for (entry_path p) (visit config g p).2.
Proof.
  revert g. induction entries as [|q rest IH]; intros g Hnodup Hin.
  - apply elem_of_nil in Hin. contradiction.
  - rewrite fmap_cons, NoDup_cons in Hnodup. destruct Hnodup as [Hfresh Hnodup].
    rewrite scan_cons. simpl. rewrite calls_for_app.
    destruct (decide (entry_path q = entry_path p)) as [Heq|Hne].
    + assert (p = q) as ->.
      { apply elem_of_cons in Hin as [Hhead|Htail]; [exact Hhead|].
        exfalso. apply Hfresh. rewrite Heq. now apply list_elem_of_fmap_2. }
      rewrite scan_calls_for_other by done. apply app_nil_r.
    + assert (Hrest : p ∈ rest).
      { apply elem_of_cons in Hin as [->|Htail]; [congruence | exact Htail]. }
      rewrite (IH (visit config g q).1 Hnodup Hrest).
      rewrite visit_calls_for_other by congruence. simpl.
      destruct (visit_flags config g q) as (_ & Hr & Hf).
      assert (Hl : sShaderEntries (visit config g q).1 !! entry_path p
                   = sShaderEntries g !! entry_path p)
        by (apply visit_lookup_other; congruence).
      now destruct (visit_local config _ g p Hr Hf Hl) as [-> _].
Qed.

End CallsFacts.

(** ** The first cycle *)

(** C4: in the first cycle (first-iteration marker set, no file tracked yet)
    over a directory that lists each path once, every regular file with a
    recognized extension gets an entry holding its modification time; with
    compile-on-startup off no call of [compileShader] is made for it, and
    with compile-on-startup on exactly one is made, with the stem and the
    extension of the file as arguments. *)
Theorem first_cycle `{FsLibrary} config fsys watched g p :
  sFirstIteration g = true ->
  sShaderEntries g = ∅ ->
  NoDup (entry_path <$> fsys watched) ->
  p ∈ fsys watched ->
  is_regular_file p = true ->
  is_valid_ext config (extension (entry_path p)) = true ->
  sShaderEntries (cycle config fsys watched g).1 !! entry_path p
    = Some {| LastWriteTime := last_write_time p |} /\
  (CompileOnStartup config = false ->
   calls_for (entry_path p) (cycle config fsys watched g).2 = [] /\
   count_calls (entry_path p) (cycle config fsys watched g).2 = 0%nat) /\
  (CompileOnStartup config = true ->
   calls_for (entry_path p) (cycle config fsys watched g).2
     = [ {| call_path := entry_path p; call_filename := stem (entry_path p);
            call_ext := extension (entry_path p) |} ] /\
   count_calls (entry_path p) (cycle config fsys watched g).2 = 1%nat).
Proof.
  intros Hfirst Hempty Hnodup Hin Hreg Hext.
  rewrite cycle_eq. simpl.
  rewrite (scan_calls_at config g (fsys watched) p Hnodup Hin).
  destruct (scan_at config g (fsys watched) p Hnodup Hin) as [-> ->].
  unfold visit. rewrite Hreg, Hext, Hempty, lookup_empty, Hfirst. simpl.
  destruct (CompileOnStartup config); simpl; rewrite lookup_insert_eq.
  - split; [reflexivity|]. split; [discriminate|]. intros _.
    split; [apply calls_for_single | apply count_calls_single].
  - split; [reflexivity|]. split; [now split | discriminate].
Qed.

Lemma first_cycle_witness :
  (sShaderEntries
     (@cycle cxx17_library sample_config sample_fs "/home/dev/project" globals_initial).1
     !! "/home/dev/project/basic.vert" = Some {| LastWriteTime := 5000000000 |} /\
   calls_for "/home/dev/project/basic.vert"
     (@cycle cxx17_library sample_config sample_fs "/home/dev/project" globals_initial).2
   = []) /\
  (calls_for "/home/dev/project/basic.vert"
     (@cycle cxx17_library sample_config_startup sample_fs "/home/dev/project"
        globals_initial).2
   = [ {| call_path := "/home/dev/project/basic.vert"; call_filename := "basic";
          call_ext := ".vert" |} ] /\
   system_log Unix sample_config_startup
     (calls_for "/home/dev/project/basic.vert"
        (@cycle cxx17_library sample_config_startup sample_fs "/home/dev/project"
           globals_initial).2)
   = [ "glslc basic.vert -o spirv/basic.vert.spv > /dev/null" ]).
Proof.
  assert (Hnodup : NoDup (entry_path <$> sample_fs "/home/dev/project"))
    by (apply (bool_decide_unpack _); vm_compute; exact I).
  split.
  - destruct (@first_cycle cxx17_library sample_config sample_fs "/home/dev/project"
                globals_initial sample_vert)
      as (Hentry & Hoff & _);
      [reflexivity | reflexivity | exact Hnodup | left | reflexivity | reflexivity |].
    split; [exact Hentry | apply Hoff; reflexivity].
  - destruct (@first_cycle cxx17_library sample_config_startup sample_fs
                "/home/dev/project" globals_initial sample_vert)
      as (_ & _ & Hon);
      [reflexivity | reflexivity | exact Hnodup | left | reflexivity | reflexivity |].
    destruct (Hon eq_refl) as [Hcalls _].
    change (entry_path sample_vert) with "/home/dev/project/basic.vert" in Hcalls.
    split; [exact Hcalls | rewrite Hcalls; reflexivity].
Defined.

(** ** A forced recompile *)

Lemma run_first_iteration `{FsLibrary} config watched events r :
  sFirstIteration (the_globals r) = false ->
  sFirstIteration (the_globals (run config watched r events)) = false.
Proof.
  revert r. induction events as [|e rest IH]; intros r Hr; [exact Hr|].
  simpl. apply IH. destruct e as [fsys|line|]; simpl.
  - destruct (sApplicationExit (the_globals r)); [exact Hr|].
    rewrite cycle_eq. reflexivity.
  - destruct (prompt_open r); [|exact Hr].
    unfold command. repeat case_bool_decide; simpl; exact Hr.
  - exact Hr.
Qed.

(** C5: when [sRecompile] is set as a cycle starts, for every tracked regular
    file of the directory with a recognized extension exactly one call of
    [compileShader] is made in that cycle, with the stem and the extension of
    the file as arguments (each path being listed once); after the cycle
    [sRecompile] and the first-iteration marker are both clear, whatever the
    directory held, and the marker stays clear in everything that follows. *)
Theorem forced_recompile_cycle `{FsLibrary} config fsys watched g :
  sRecompile g = true ->
  NoDup (entry_path <$> fsys watched) ->
  (forall p, p ∈ fsys watched ->
     is_regular_file p = true ->
     is_valid_ext config (extension (entry_path p)) = true ->
     is_Some (sShaderEntries g !! entry_path p) ->
     calls_for (entry_path p) (cycle config fsys watched g).2
       = [ {| call_path := entry_path p; call_filename := stem (entry_path p);
              call_ext := extension (entry_path p) |} ] /\
     count_calls (entry_path p) (cycle config fsys watched g).2 = 1%nat) /\
  sRecompile (cycle config fsys watched g).1 = false /\
  sFirstIteration (cycle config fsys watched g).1 = false /\
  (forall r events,
     the_globals r = (cycle config fsys watched g).1 ->
     sFirstIteration (the_globals (run config watched r events)) = false).
Proof.
  intros Hforce Hnodup. split; [|split; [|split]].
  - intros p Hin Hreg Hext [known Hknown].
    rewrite cycle_eq. simpl.
    rewrite (scan_calls_at config g (fsys watched) p Hnodup Hin).
    destruct (scan_at config g (fsys watched) p Hnodup Hin) as [-> _].
    rewrite (visit_tracked_eq config g p known Hreg Hext Hknown), Hforce, orb_true_r.
    split; [apply calls_for_single | apply count_calls_single].
  - apply cycle_clears.
  - apply cycle_clears.
  - intros r events Hr. apply run_first_iteration. rewrite Hr. apply cycle_clears.
Qed.

Lemma forced_recompile_cycle_witness :
  calls_for "/home/dev/project/basic.frag"
    (@cycle cxx17_library sample_config sample_fs "/home/dev/project" sample_forced).2
  = [ {| call_path := "/home/dev/project/basic.frag"; call_filename := "basic";
         call_ext := ".frag" |} ] /\
  system_log Unix sample_config
    (calls_for "/home/dev/project/basic.frag"
       (@cycle cxx17_library sample_config sample_fs "/home/dev/project" sample_forced).2)
  = [ "glslangValidator - V basic.frag -o spirv/basic.frag.spv > /dev/null" ] /\
  sRecompile
    (@cycle cxx17_library sample_config sample_fs "/home/dev/project" sample_forced).1
  = false.
Proof.
  destruct (@forced_recompile_cycle cxx17_library sample_config sample_fs
              "/home/dev/project" sample_forced)
    as (Hcalls & Hclear & _).
  - reflexivity.
  - apply (bool_decide_unpack _). vm_compute. exact I.
  - destruct (Hcalls {| entry_path := "/home/dev/project/basic.frag";
                        is_regular_file := true; last_write_time := 7000000000 |})
      as [Hfrag _].
    + right. left.
    + reflexivity.
    + reflexivity.
    + vm_compute. eauto.
    + cbn [entry_path] in Hfrag.
      split; [exact Hfrag|]. split; [rewrite Hfrag; reflexivity | exact Hclear].
Defined.

(** ** Two cycles over an unchanged directory *)

(** C6: a cycle that follows another one over the same directory (each path
    listed once, same files, same modification times), with no recompile
    requested in between, compiles nothing and leaves the globals as they
    are. *)
Theorem second_cycle_compiles_nothing `{FsLibrary} config fsys watched g :
  NoDup (entry_path <$> fsys watched) ->
  sRecompile (cycle config fsys watched g).1 = false /\
  cycle config fsys watched (cycle config fsys watched g).1
    = ((cycle config fsys watched g).1, []).
Proof.
  intros Hnodup. split; [apply cycle_clears|].
  rewrite (cycle_eq config fsys watched (cycle config fsys watched g).1).
  rewrite scan_settled.
  - rewrite cycle_eq. reflexivity.
  - apply cycle_clears.
  - intros p Hin. rewrite cycle_entries. now apply scan_settles.
Qed.

Lemma second_cycle_compiles_nothing_witness :
  (@cycle cxx17_library sample_config sample_fs "/home/dev/project"
     (@cycle cxx17_library sample_config sample_fs "/home/dev/project"
        sample_forced).1).2 = [].
Proof.
  destruct (@second_cycle_compiles_nothing cxx17_library sample_config sample_fs
              "/home/dev/project" sample_forced) as [_ ->].
  - apply (bool_decide_unpack _). vm_compute. exact I.
  - reflexivity.
Defined.

(** ** Files with other extensions *)

Section RunFacts.
Context `{FsLibrary}.
Variable config : Config.
Variable watched : path.

Lemma recognized_only_initial : recognized_only config running_initial.
Proof.
  split.
  - intros k [x Hx]. simpl in Hx. rewrite lookup_empty in Hx. discriminate.
  - intros c Hc. apply elem_of_nil in Hc. contradiction.
Qed.

Lemma command_entries line g :
  sShaderEntries (command line g).1 = sShaderEntries g.
Proof. unfold command. repeat case_bool_decide; reflexivity. Qed.

Lemma step_recognized_only r e :
  recognized_only config r -> recognized_only config (step config watched r e).
Proof.
  intros [Hkeys Hcalls]. destruct e as [fsys|line|]; simpl.
  - destruct (sApplicationExit (the_globals r)); [now split|].
    rewrite cycle_eq. split; simpl.
    + intros k Hk.
      destruct (sShaderEntries (the_globals r) !! k) as [x|] eqn:Hold.
      * apply Hkeys. rewrite Hold. eauto.
      * destruct (scan_inserts config _ _ k Hold Hk) as (p & _ & -> & _ & Hext).
        exact Hext.
    + intros c. rewrite elem_of_app. intros [Hc|Hc]; [now apply Hcalls|].
      apply scan_calls in Hc as (p & _ & -> & _ & Hext). exact Hext.
  - destruct (prompt_open r); [|now split].
    pose proof (command_entries line (the_globals r)) as Hsame.
    destruct (command line (the_globals r)) as [g open]. simpl in *.
    split; simpl; [now rewrite Hsame | exact Hcalls].
  - now split.
Qed.

Lemma run_recognized_only r events :
  recognized_only config r -> recognized_only config (run config watched r events).
Proof.
  revert r. induction events as [|e rest IH]; intros r Hr; [exact Hr|].
  simpl. apply IH. now apply step_recognized_only.
Qed.

End RunFacts.

(** C7: whatever the watcher and the prompt do from the start of the
    program (any number of cycles over any directory contents and
    modification times, any commands, forced recompiles included), a path
    whose extension is none of the four configured ones is never a key of
    [sShaderEntries] and is never compiled. *)
Theorem unrecognized_never_watched `{FsLibrary} config watched events k :
  is_valid_ext config (extension k) = false ->
  sShaderEntries (the_globals (run config watched running_initial events)) !! k = None /\
  count_calls k (compiled (run config watched running_initial events)) = 0%nat /\
  (forall c, c ∈ compiled (run config watched running_initial events) -> call_path c <> k).
Proof.
  intros Hext.
  destruct (run_recognized_only config watched running_initial events
              (recognized_only_initial config)) as [Hkeys Hcalls].
  assert (Hnever : forall c,
            c ∈ compiled (run config watched running_initial events) -> call_path c <> k).
  { intros c Hc <-. apply Hcalls in Hc. congruence. }
  split; [|split; [now apply count_calls_absent | exact Hnever]].
  destruct (sShaderEntries _ !! k) as [x|] eqn:Hk; [|reflexivity].
  assert (is_valid_ext config (extension k) = true) by (apply Hkeys; rewrite Hk; eauto).
  congruence.
Qed.

Lemma unrecognized_never_watched_witness :
  sShaderEntries
    (the_globals
       (@run cxx17_library sample_config "/home/dev/project" running_initial sample_events))
    !! "/home/dev/project/notes.txt" = None /\
  count_calls "/home/dev/project/notes.txt"
    (compiled
       (@run cxx17_library sample_config "/home/dev/project" running_initial sample_events))
  = 0%nat.
Proof.
  destruct (@unrecognized_never_watched cxx17_library sample_config "/home/dev/project"
              sample_events "/home/dev/project/notes.txt") as (Hkey & Hcount & _).
  - vm_compute. reflexivity.
  - split; [exact Hkey | exact Hcount].
Defined.

(** ** The scenario of the specification *)

(** [basic.vert] is registered without a compile in the first cycle; after
    it is written again two seconds later, the second cycle runs the compiler
    once, on [basic.vert], with [basic.vert.spv] as the output. *)
Example scenario_edit_then_compile :
  let r1 := @run cxx17_library sample_config "/home/dev/project" running_initial
                 [Tick sample_fs] in
  let r2 := @run cxx17_library sample_config "/home/dev/project" r1 [Tick touched_fs] in
  compiled r1 = [] /\
  system_log Unix sample_config (compiled r2)
  = [ "glslangValidator - V basic.vert -o spirv/basic.vert.spv > /dev/null" ].
Proof. split; vm_compute; reflexivity. Qed.

(** Two tracked, unmodified files and a recompile command: the next cycle
    compiles both, once each. *)
Example scenario_forced_recompile :
  let r1 := @run cxx17_library sample_config "/home/dev/project" running_initial
                 [Tick sample_fs; Input "-r"] in
  let r2 := @run cxx17_library sample_config "/home/dev/project" r1 [Tick sample_fs] in
  sRecompile (the_globals r1) = true /\
  call_path <$> compiled r2
  = [ "/home/dev/project/basic.vert"; "/home/dev/project/basic.frag" ] /\
  sRecompile (the_globals r2) = false.
Proof. repeat split; vm_compute; reflexivity. Qed.

(** * Further properties of the parser *)

Lemma append_empty b : "" +:+ b = b.
Proof. reflexivity. Qed.

Lemma append_String c a b : String c a +:+ b = String c (a +:+ b).
Proof. reflexivity. Qed.

Lemma size_app a b : size (a +:+ b) = size a + size b.
Proof.
  induction a as [|c a IH].
  - rewrite append_empty. unfold size. simpl. lia.
  - rewrite append_String, !size_String. lia.
Qed.

Lemma find_from_app c key rest i :
  occurs c key = false ->
  find_from c (key +:+ String c rest) i = i + size key.
Proof.
  revert i. induction key as [|a key IH]; intros i Hno.
  - rewrite append_empty. simpl. rewrite Ascii.eqb_refl. unfold size. simpl. lia.
  - rewrite append_String. simpl in *.
    apply orb_false_iff in Hno as [Ha Hkey]. rewrite Ha, IH by exact Hkey.
    rewrite size_String. lia.
Qed.

Lemma string_take_app key rest : string_take (String.length key) (key +:+ rest) = key.
Proof.
  induction key as [|a key IH].
  - rewrite append_empty. now destruct rest.
  - rewrite append_String. simpl. now rewrite IH.
Qed.

Lemma string_drop_succ_app key c rest :
  string_drop (S (String.length key)) (key +:+ String c rest) = rest.
Proof.
  induction key as [|a key IH].
  - rewrite append_empty. simpl. now destruct rest.
  - rewrite append_String. simpl in *. exact IH.
Qed.

Lemma assignment_line key value :
  key +:+ "=" +:+ value = key +:+ String "=" value.
Proof. reflexivity. Qed.

Lemma line_key_assignment key value :
  occurs "=" key = false ->
  line_key (key +:+ "=" +:+ value) = Some key.
Proof.
  intros Hno. rewrite assignment_line. unfold line_key, find.
  rewrite (find_from_app _ _ _ _ Hno), Z.add_0_l.
  unfold substr. pose proof (size_nonneg (key +:+ String "=" value)).
  case_bool_decide; [lia|]. rewrite string_drop_0, Z.sub_0_r.
  rewrite size_app, size_String. pose proof (size_nonneg value).
  rewrite Z.min_l by lia. unfold size. now rewrite Nat2Z.id, string_take_app.
Qed.

Lemma line_value_assignment key value :
  occurs "=" key = false ->
  size (key +:+ "=" +:+ value) <= npos ->
  line_value (key +:+ "=" +:+ value) = Some value.
Proof.
  intros Hno Hsz. rewrite assignment_line in *. unfold line_value, find.
  rewrite (find_from_app _ _ _ _ Hno), Z.add_0_l.
  rewrite size_app, size_String in Hsz.
  pose proof (size_nonneg key). pose proof (size_nonneg value).
  unfold size_t_add. rewrite Z.mod_small by (unfold npos in Hsz; lia).
  unfold substr. rewrite size_app, size_String.
  case_bool_decide; [lia|].
  replace (size key + (size value + 1) - (size key + 1)) with (size value) by lia.
  rewrite Z.min_r by lia.
  replace (Z.to_nat (size key + 1)) with (S (String.length key)) by (unfold size; lia).
  rewrite string_drop_succ_app. unfold size. now rewrite Nat2Z.id, string_take_all.
Qed.

Lemma string_at_0_assignment key value :
  string_at key 0 <> Some "#"%char ->
  string_at (key +:+ "=" +:+ value) 0 <> Some "#"%char.
Proof.
  destruct key as [|c key].
  - intros _. rewrite append_empty, append_String, string_at_0_String. discriminate.
  - now rewrite append_String, !string_at_0_String.
Qed.

Lemma parse_line_assignment key value m :
  occurs "=" key = false ->
  string_at key 0 <> Some "#"%char ->
  size (key +:+ "=" +:+ value) <= npos ->
  parse_line (key +:+ "=" +:+ value) m = Some (<[key := value]> m).
Proof.
  intros Hno Hkey Hsz. unfold parse_line.
  pose proof (string_at_0_assignment key value Hkey) as Hfirst.
  destruct (string_at_0_defined (key +:+ "=" +:+ value)) as [c Hc].
  rewrite Hc. simpl.
  rewrite bool_decide_eq_true_2 by congruence.
  now rewrite line_key_assignment, line_value_assignment.
Qed.

Lemma parse_lines_app before after m :
  parse_lines (before ++ after) m = parse_lines before m ≫= parse_lines after.
Proof.
  revert m. induction before as [|line rest IH]; intros m; simpl; [reflexivity|].
  destruct (parse_line line m) as [m1|]; simpl; [apply IH | reflexivity].
Qed.

Lemma parse_line_comment text m : parse_line (String "#" text) m = Some m.
Proof. unfold parse_line. rewrite string_at_0_String. reflexivity. Qed.

(** X1: no sequence of lines makes [parseIniFile] throw: both positions
    passed to [substr] lie inside the line, for empty lines and for lines
    without '=' as well ([npos + 1] wraps around to 0). *)
Theorem parseIniFile_never_throws lines config :
  exists parsed, parseIniFile lines config = Some parsed.
Proof.
  unfold parseIniFile.
  destruct (parse_lines_total lines ∅) as [m ->]. simpl. eauto.
Qed.

(** X2: a line [key=value] whose key holds no '=' and does not start with
    '#' stores [value] under [key]; the value is everything after the first
    '=', further '=' and '#' characters included. *)
Theorem parse_line_stores_assignment key value m :
  occurs "=" key = false ->
  string_at key 0 <> Some "#"%char ->
  size (key +:+ "=" +:+ value) <= npos ->
  line_key (key +:+ "=" +:+ value) = Some key /\
  line_value (key +:+ "=" +:+ value) = Some value /\
  parse_line (key +:+ "=" +:+ value) m = Some (<[key := value]> m).
Proof.
  intros Hno Hkey Hsz. split; [|split].
  - now apply line_key_assignment.
  - now apply line_value_assignment.
  - now apply parse_line_assignment.
Qed.

Lemma parse_line_stores_assignment_witness :
  parse_line "glsl_c_path=C:/VulkanSDK/Bin/glslc.exe --target-env=vulkan #fast" ∅
  = Some {[ "glsl_c_path" := "C:/VulkanSDK/Bin/glslc.exe --target-env=vulkan #fast" ]}.
Proof.
  apply (parse_line_stores_assignment "glsl_c_path"
           "C:/VulkanSDK/Bin/glslc.exe --target-env=vulkan #fast" ∅).
  - reflexivity.
  - vm_compute. discriminate.
  - vm_compute. discriminate.
Defined.

(** X3: the last line that assigns a key decides its value: after
    [key=value], lines with other keys (comments among them) leave the
    value read back for [key] at [value], whatever came before. *)
Theorem last_assignment_wins key value before after :
  occurs "=" key = false ->
  string_at key 0 <> Some "#"%char ->
  size (key +:+ "=" +:+ value) <= npos ->
  (forall line, line ∈ after -> line_key line <> Some key) ->
  exists m, parse_lines (before ++ (key +:+ "=" +:+ value) :: after) ∅ = Some m /\
            ini_value m key = value.
Proof.
  intros Hno Hkey Hsz Hafter.
  destruct (parse_lines_total (before ++ (key +:+ "=" +:+ value) :: after) ∅) as [m Hm].
  exists m. split; [exact Hm|].
  rewrite parse_lines_app in Hm.
  destruct (parse_lines before ∅) as [m0|]; [|discriminate]. simpl in Hm.
  rewrite parse_line_assignment in Hm by assumption. simpl in Hm.
  unfold ini_value.
  now rewrite (parse_lines_absent key after _ m Hm Hafter), lookup_insert_eq.
Qed.

Lemma last_assignment_wins_witness :
  exists m,
    parse_lines (["vs_ext=.vs"; "fs_ext=.fs"] ++ ("vs_ext" +:+ "=" +:+ ".vert")
                   :: ["# shaders"; "spirv_ext=.spv"]) ∅ = Some m /\
    ini_value m "vs_ext" = ".vert".
Proof.
  apply (last_assignment_wins "vs_ext" ".vert" ["vs_ext=.vs"; "fs_ext=.fs"]
           ["# shaders"; "spirv_ext=.spv"]).
  - reflexivity.
  - vm_compute. discriminate.
  - vm_compute. discriminate.
  - intros line Hin. repeat (apply elem_of_cons in Hin as [->|Hin]);
      [vm_compute; discriminate | vm_compute; discriminate |].
    apply elem_of_nil in Hin. contradiction.
Defined.

(** X4: a line that starts with '#' has no effect on the configuration:
    the file parses as it does with the line removed. *)
Theorem comment_line_is_ignored before text after config :
  parseIniFile (before ++ String "#" text :: after) config
  = parseIniFile (before ++ after) config.
Proof.
  assert (Hsame : parse_lines (before ++ String "#" text :: after) ∅
                  = parse_lines (before ++ after) ∅).
  { rewrite !parse_lines_app.
    destruct (parse_lines before ∅) as [m|]; [|reflexivity].
    change (parse_line (String "#" text) m ≫= parse_lines after = parse_lines after m).
    now rewrite parse_line_comment. }
  unfold parseIniFile. now rewrite Hsame.
Qed.

(** X5: a key that no line of the file assigns leaves its field at the
    default: the empty string for the nine text fields, false for the two
    flags. *)
Theorem parseIniFile_defaults lines config0 config :
  parseIniFile lines config0 = Some config ->
  let absent k := forall line, line ∈ lines -> line_key line <> Some k in
  (absent "compile_on_startup" -> CompileOnStartup config = false) /\
  (absent "use_google_spirv" -> UseGoogleSPIRV config = false) /\
  (absent "glsl_lang_validator_path" -> GLSLLangValidatorPath config = "") /\
  (absent "glsl_c_path" -> GLSLCPath config = "") /\
  (absent "shader_source_path" -> ShaderSourcePath config = "") /\
  (absent "spirv_output_path" -> SPIRVOutputPath config = "") /\
  (absent "spirv_ext" -> SPIRVExt config = "") /\
  (absent "vs_ext" -> VSExt config = "") /\
  (absent "fs_ext" -> FSExt config = "") /\
  (absent "gs_ext" -> GSExt config = "") /\
  (absent "cs_ext" -> CSExt config = "").
Proof.
  intros Hparse absent. unfold parseIniFile in Hparse.
  destruct (parse_lines lines ∅) as [m|] eqn:Hm; [|discriminate].
  simpl in Hparse. injection Hparse as <-. subst absent. simpl.
  repeat split; intros Habsent;
    rewrite (ini_value_absent _ lines m Hm Habsent); reflexivity.
Qed.

Lemma parseIniFile_defaults_witness :
  exists config,
    parseIniFile ["# output only"; "spirv_output_path=spirv"; "vs_ext"] config_initial
      = Some config /\
    UseGoogleSPIRV config = false /\ FSExt config = "".
Proof.
  destruct (parseIniFile_total
              ["# output only"; "spirv_output_path=spirv"; "vs_ext"] config_initial)
    as [config Hconfig].
  exists config. split; [exact Hconfig|].
  destruct (parseIniFile_defaults _ _ _ Hconfig)
    as (_ & Hgoogle & _ & _ & _ & _ & _ & _ & Hfs & _).
  split; [apply Hgoogle | apply Hfs];
    intros line Hin; repeat (apply elem_of_cons in Hin as [->|Hin]);
    try (vm_compute; discriminate); apply elem_of_nil in Hin; contradiction.
Defined.

(** * Further properties of the start-up *)

Lemma output_path_is_relative_nonempty s :
  s <> "" -> output_path_is_relative s = Some (negb (looks_absolute s)).
Proof.
  intros Hne. destruct s as [|c rest]; [congruence|].
  unfold output_path_is_relative, looks_absolute.
  rewrite string_at_0_String. simpl.
  destruct (Ascii.eqb_spec c "/") as [->|Hslash]; [reflexivity|].
  rewrite bool_decide_eq_true_2 by exact Hslash.
  destruct (Ascii.eqb_spec c "\") as [->|Hback]; [reflexivity|].
  rewrite bool_decide_eq_true_2 by exact Hback.
  rewrite string_at_1_String. destruct rest as [|d rest].
  - reflexivity.
  - rewrite string_at_0_String. simpl.
    destruct (Ascii.eqb_spec d ":") as [->|Hcolon]; [reflexivity|].
    now rewrite bool_decide_eq_true_2 by exact Hcolon.
Qed.

(** X6: once the configuration file is open, what [main] does up to the
    start of the watcher is decided by the configured output path and by
    [fs::create_directory]. With an empty path the test of its characters is
    undefined. Otherwise the directory to create is the path as configured
    when it starts with '/' or a backslash or has ':' in second place, and
    the path below the current path if not; when creating it throws, [main]
    ends by that exception, and when it returns the watcher is started on
    the current path. The parser makes no difference to this: it never
    throws. *)
Theorem main_outcome currentPath lines create_directory :
  exists config,
    parseIniFile lines config_initial = Some config /\
    main (Some currentPath) (Some lines) create_directory
    = if bool_decide (SPIRVOutputPath config = "") then Undefined
      else
        let spirvPath :=
          if looks_absolute (SPIRVOutputPath config)
          then AsConfigured (SPIRVOutputPath config)
          else BelowCurrentPath currentPath (SPIRVOutputPath config) in
        match create_directory spirvPath with
        | CreateThrows => Thrown
        | DirectoryReady => Watching config spirvPath currentPath
        end.
Proof.
  destruct (parseIniFile_total lines config_initial) as [config Hconfig].
  exists config. split; [exact Hconfig|].
  unfold main. rewrite Hconfig.
  case_bool_decide as Hempty.
  - rewrite Hempty. reflexivity.
  - rewrite (output_path_is_relative_nonempty _ Hempty).
    now destruct (looks_absolute (SPIRVOutputPath config)).
Qed.

(** A relative output path whose parent directory is missing: creating it
    throws and [main] ends before the watcher is started. *)
Example main_output_parent_missing :
  main (Some "/home/dev/project")
       (Some ["spirv_output_path=build/spirv"; "vs_ext=.vert"]) parent_missing
  = Thrown.
Proof. vm_compute. reflexivity. Qed.

(** X7: the metadata option is never switched on: in every configuration
    [main] starts the watcher with, [GenerateMetaData] is false, whatever the
    file says. *)
Theorem metadata_option_never_set currentPath ini create_directory config created watched :
  main currentPath ini create_directory = Watching config created watched ->
  GenerateMetaData config = false.
Proof.
  unfold main. intros Hmain.
  destruct currentPath as [currentPath|]; [|discriminate].
  destruct ini as [lines|]; [|discriminate].
  unfold parseIniFile in Hmain.
  destruct (parse_lines lines ∅) as [m|]; [|discriminate]. simpl in Hmain.
  repeat case_match; simplify_eq; reflexivity.
Qed.

Lemma metadata_option_never_set_witness :
  GenerateMetaData sample_config = false.
Proof.
  apply (metadata_option_never_set (Some "/home/dev/project")
           (Some ("generate_meta_data=true" :: sample_ini)) always_ready sample_config
           (BelowCurrentPath "/home/dev/project" "spirv") "/home/dev/project").
  vm_compute. reflexivity.
Defined.

(** * Further properties of the watcher *)

Section MoreWatchFacts.
Context `{FsLibrary}.
Variable config : Config.

Lemma visit_skips g p :
  is_regular_file p = false \/ is_valid_ext config (extension (entry_path p)) = false ->
  visit config g p = (g, []).
Proof.
  intros Hskip. unfold visit.
  destruct (is_regular_file p); [|reflexivity].
  destruct Hskip as [Hreg | ->]; [discriminate | reflexivity].
Qed.

Lemma visit_count_le g p k : (count_calls k (visit config g p).2 <= 1)%nat.
Proof.
  unfold count_calls. etransitivity; [apply length_filter|].
  unfold visit. repeat case_match; simpl; lia.
Qed.

Lemma visit_compiled_in_sync g p c :
  c ∈ (visit config g p).2 ->
  sShaderEntries (visit config g p).1 !! entry_path p
  = Some {| LastWriteTime := last_write_time p |}.
Proof.
  unfold visit. repeat case_match; simpl; intros Hin;
    try (apply elem_of_nil in Hin; contradiction); apply lookup_insert_eq.
Qed.

Lemma count_calls_present k calls c :
  c ∈ calls -> call_path c = k -> (1 <= count_calls k calls)%nat.
Proof.
  intros Hin Hk. unfold count_calls.
  induction calls as [|d rest IH]; [apply elem_of_nil in Hin; contradiction|].
  rewrite filter_cons. apply elem_of_cons in Hin as [<-|Hin].
  - rewrite decide_True by exact Hk. simpl. lia.
  - specialize (IH Hin). case_decide; simpl; lia.
Qed.

Lemma count_calls_zero_nil calls :
  (forall c, c ∈ calls -> count_calls (call_path c) calls = 0%nat) -> calls = [].
Proof.
  destruct calls as [|c rest]; [reflexivity|]. intros Hzero.
  assert (Hc : c ∈ c :: rest) by left.
  pose proof (count_calls_present (call_path c) (c :: rest) c Hc eq_refl).
  specialize (Hzero c Hc). lia.
Qed.

Lemma scan_leaves_alone g entries k :
  (forall p, p ∈ entries -> entry_path p = k ->
     is_regular_file p = false \/ is_valid_ext config (extension k) = false) ->
  sShaderEntries (scan config g entries).1 !! k = sShaderEntries g !! k /\
  count_calls k (scan config g entries).2 = 0%nat.
Proof.
  revert g. induction entries as [|p rest IH]; intros g Hskip; [now split|].
  rewrite scan_cons. simpl. rewrite count_calls_app.
  destruct (IH (visit config g p).1) as [-> ->].
  { intros q Hq. apply Hskip. now right. }
  destruct (decide (entry_path p = k)) as [Hk|Hk].
  - rewrite visit_skips; [now split|].
    destruct (Hskip p ltac:(left) Hk) as [Hreg|Hext]; [now left | right; now rewrite Hk].
  - rewrite visit_lookup_other, visit_count_other by congruence. now split.
Qed.

(** A cycle over the directory it has just scanned, with no recompile
    requested, changes nothing. *)
Lemma cycle_again fsys watched g :
  NoDup (entry_path <$> fsys watched) ->
  cycle config fsys watched (cycle config fsys watched g).1
  = ((cycle config fsys watched g).1, []).
Proof.
  intros Hnodup.
  rewrite (cycle_eq config fsys watched (cycle config fsys watched g).1).
  rewrite scan_settled.
  - rewrite cycle_eq. reflexivity.
  - apply cycle_clears.
  - intros p Hin. rewrite cycle_entries. now apply scan_settles.
Qed.

(** The first cycle without compile-on-startup compiles nothing. *)
Lemma first_cycle_silent fsys watched g :
  sFirstIteration g = true ->
  sShaderEntries g = ∅ ->
  CompileOnStartup config = false ->
  NoDup (entry_path <$> fsys watched) ->
  (cycle config fsys watched g).2 = [].
Proof.
  intros Hfirst Hempty Hoff Hnodup. rewrite cycle_eq. simpl.
  apply count_calls_zero_nil. intros c Hc.
  destruct (scan_calls config _ _ _ Hc) as (p & Hin & -> & Hreg & Hext). simpl.
  destruct (scan_at config g (fsys watched) p Hnodup Hin) as [-> _].
  unfold visit. now rewrite Hreg, Hext, Hempty, lookup_empty, Hfirst, Hoff.
Qed.

End MoreWatchFacts.

(** X8: a regular file with a recognized extension that is not tracked yet
    and shows up in a cycle after the first one gets exactly one call of
    [compileShader] in that cycle, with its stem and its extension as
    arguments, and is tracked from then on with its modification time, with
    or without compile-on-startup. *)
Theorem new_file_in_later_cycle `{FsLibrary} config fsys watched g p :
  sFirstIteration g = false ->
  NoDup (entry_path <$> fsys watched) ->
  p ∈ fsys watched ->
  is_regular_file p = true ->
  is_valid_ext config (extension (entry_path p)) = true ->
  sShaderEntries g !! entry_path p = None ->
  calls_for (entry_path p) (cycle config fsys watched g).2
    = [ {| call_path := entry_path p; call_filename := stem (entry_path p);
           call_ext := extension (entry_path p) |} ] /\
  count_calls (entry_path p) (cycle config fsys watched g).2 = 1%nat /\
  sShaderEntries (cycle config fsys watched g).1 !! entry_path p
    = Some {| LastWriteTime := last_write_time p |}.
Proof.
  intros Hlater Hnodup Hin Hreg Hext Hnew.
  rewrite cycle_eq. simpl.
  rewrite (scan_calls_at config g (fsys watched) p Hnodup Hin).
  destruct (scan_at config g (fsys watched) p Hnodup Hin) as [-> ->].
  unfold visit. rewrite Hreg, Hext, Hnew, Hlater. simpl.
  split; [apply calls_for_single|].
  split; [apply count_calls_single | apply lookup_insert_eq].
Qed.

Lemma new_file_in_later_cycle_witness :
  calls_for "/home/dev/project/basic.frag"
    (@cycle cxx17_library sample_config sample_fs "/home/dev/project" sample_tracked).2
  = [ {| call_path := "/home/dev/project/basic.frag"; call_filename := "basic";
         call_ext := ".frag" |} ] /\
  count_calls "/home/dev/project/basic.frag"
    (@cycle cxx17_library sample_config sample_fs "/home/dev/project" sample_tracked).2
  = 1%nat /\
  sShaderEntries
    (@cycle cxx17_library sample_config sample_fs "/home/dev/project" sample_tracked).1
    !! "/home/dev/project/basic.frag" = Some {| LastWriteTime := 7000000000 |}.
Proof.
  apply (@new_file_in_later_cycle cxx17_library sample_config sample_fs
           "/home/dev/project" sample_tracked
           {| entry_path := "/home/dev/project/basic.frag"; is_regular_file := true;
              last_write_time := 7000000000 |}).
  - reflexivity.
  - apply (bool_decide_unpack _). vm_compute. exact I.
  - right. left.
  - reflexivity.
  - reflexivity.
  - reflexivity.
Defined.

(** X9: a cycle leaves alone every path that no regular file with a
    recognized extension in the directory has: the path of a file that was
    deleted, of a directory, of a file with another extension. Its entry,
    if there is one, stays as it is, and it is not compiled, forced recompile
    or not. *)
Theorem cycle_leaves_others_alone `{FsLibrary} config fsys watched g k :
  (forall p, p ∈ fsys watched -> entry_path p = k ->
     is_regular_file p = false \/ is_valid_ext config (extension k) = false) ->
  sShaderEntries (cycle config fsys watched g).1 !! k = sShaderEntries g !! k /\
  count_calls k (cycle config fsys watched g).2 = 0%nat.
Proof.
  intros Hskip. rewrite cycle_eq. simpl. now apply scan_leaves_alone.
Qed.

Lemma cycle_leaves_others_alone_witness :
  sShaderEntries
    (@cycle cxx17_library sample_config sample_fs "/home/dev/project" sample_forced).1
    !! "/home/dev/project/spirv" = None /\
  count_calls "/home/dev/project/spirv"
    (@cycle cxx17_library sample_config sample_fs "/home/dev/project" sample_forced).2
  = 0%nat.
Proof.
  apply (@cycle_leaves_others_alone cxx17_library sample_config sample_fs
           "/home/dev/project" sample_forced "/home/dev/project/spirv").
  intros p Hin Hpath. vm_compute in Hin.
  repeat (apply elem_of_cons in Hin as [->|Hin]); try discriminate Hpath.
  - left. reflexivity.
  - apply elem_of_nil in Hin. contradiction.
Defined.

(** X10: in one cycle over a directory that lists each path once, no file
    is compiled more than once, whatever the configuration (the same
    extension configured for several stages included) and whatever the
    flags. *)
Theorem at_most_one_compile_per_file `{FsLibrary} config fsys watched g k :
  NoDup (entry_path <$> fsys watched) ->
  (count_calls k (cycle config fsys watched g).2 <= 1)%nat.
Proof.
  intros Hnodup. rewrite cycle_eq. simpl.
  destruct (decide (k ∈ entry_path <$> fsys watched)) as [Hin|Hout].
  - apply list_elem_of_fmap in Hin as (p & -> & Hp).
    destruct (scan_at config g (fsys watched) p Hnodup Hp) as [-> _].
    apply visit_count_le.
  - rewrite scan_count_other by exact Hout. lia.
Qed.

Lemma at_most_one_compile_per_file_witness :
  (count_calls "/home/dev/project/basic.vert"
     (@cycle cxx17_library config_same_ext sample_fs "/home/dev/project"
        globals_initial).2 <= 1)%nat.
Proof.
  apply (@at_most_one_compile_per_file cxx17_library config_same_ext sample_fs
           "/home/dev/project" globals_initial "/home/dev/project/basic.vert").
  apply (bool_decide_unpack _). vm_compute. exact I.
Defined.

(** X11: every call of [compileShader] in a cycle is for a regular file of
    the scanned directory with a recognized extension, with the stem and the
    extension of its path as arguments, and when the cycle ends the time
    stored for that file is its current modification time. *)
Theorem compiled_files_are_in_sync `{FsLibrary} config fsys watched g c :
  NoDup (entry_path <$> fsys watched) ->
  c ∈ (cycle config fsys watched g).2 ->
  exists p, p ∈ fsys watched /\ c = call_of p /\ is_regular_file p = true /\
    is_valid_ext config (extension (entry_path p)) = true /\
    sShaderEntries (cycle config fsys watched g).1 !! entry_path p
      = Some {| LastWriteTime := last_write_time p |}.
Proof.
  intros Hnodup Hc. rewrite cycle_eq in *. simpl in *.
  destruct (scan_calls config _ _ _ Hc) as (p & Hin & -> & Hreg & Hext).
  exists p. repeat split; try assumption.
  destruct (scan_at config g (fsys watched) p Hnodup Hin) as [Hcount ->].
  pose proof (count_calls_present (entry_path p) _ _ Hc eq_refl) as Hpos.
  rewrite Hcount in Hpos.
  destruct (visit config g p).2 as [|d rest] eqn:Hcalls;
    [unfold count_calls in Hpos; simpl in Hpos; lia|].
  apply (visit_compiled_in_sync config g p d). rewrite Hcalls. left.
Qed.

Lemma compiled_files_are_in_sync_witness :
  exists p, p ∈ touched_fs "/home/dev/project" /\
    {| call_path := "/home/dev/project/basic.vert"; call_filename := "basic";
       call_ext := ".vert" |} = @call_of cxx17_library p /\
    is_regular_file p = true /\
    @is_valid_ext sample_config (@extension cxx17_library (entry_path p)) = true /\
    sShaderEntries
      (@cycle cxx17_library sample_config touched_fs "/home/dev/project" sample_forced).1
      !! entry_path p = Some {| LastWriteTime := last_write_time p |}.
Proof.
  apply (@compiled_files_are_in_sync cxx17_library sample_config touched_fs
           "/home/dev/project" sample_forced).
  - apply (bool_decide_unpack _). vm_compute. exact I.
  - vm_compute. left.
Defined.

(** * Further properties of the running program *)

Section MoreRunFacts.
Context `{FsLibrary}.
Variable config : Config.
Variable watched : path.

Lemma step_keeps_entries r e k :
  is_Some (sShaderEntries (the_globals r) !! k) ->
  is_Some (sShaderEntries (the_globals (step config watched r e)) !! k).
Proof.
  intros Hk. destruct e as [fsys|line|]; simpl.
  - destruct (sApplicationExit (the_globals r)); [exact Hk|].
    rewrite cycle_eq. simpl. now apply scan_keeps.
  - destruct (prompt_open r); [|exact Hk].
    pose proof (command_entries line (the_globals r)) as Hsame.
    destruct (command line (the_globals r)) as [g open]. simpl in *. now rewrite Hsame.
  - exact Hk.
Qed.

Lemma step_stopped r e : stopped r -> step config watched r e = r.
Proof.
  intros [Hexit Hclosed]. destruct e as [fsys|line|]; simpl.
  - now rewrite Hexit.
  - now rewrite Hclosed.
  - destruct r as [g open calls]. simpl in *. now rewrite Hclosed.
Qed.

Lemma run_stopped r events : stopped r -> run config watched r events = r.
Proof.
  intros Hstop. induction events as [|e rest IH]; [reflexivity|].
  simpl. rewrite step_stopped by exact Hstop. exact IH.
Qed.

Lemma step_unattended r e : unattended r -> unattended (step config watched r e).
Proof.
  intros [Hexit Hclosed]. destruct e as [fsys|line|]; simpl.
  - rewrite Hexit, cycle_eq. split; simpl; [|exact Hclosed].
    destruct (scan_flags config (the_globals r) (fsys watched)) as (-> & _). exact Hexit.
  - rewrite Hclosed. now split.
  - now split.
Qed.

Lemma run_unattended r events : unattended r -> unattended (run config watched r events).
Proof.
  revert r. induction events as [|e rest IH]; intros r Hr; [exact Hr|].
  simpl. apply IH. now apply step_unattended.
Qed.

End MoreRunFacts.

(** X12: an entry of [sShaderEntries] is never removed: a path that is a
    key stays a key through every cycle and every command, also when its file
    has gone from the directory. *)
Theorem entries_are_never_removed `{FsLibrary} config watched r events k :
  is_Some (sShaderEntries (the_globals r) !! k) ->
  is_Some (sShaderEntries (the_globals (run config watched r events)) !! k).
Proof.
  revert r. induction events as [|e rest IH]; intros r Hk; [exact Hk|].
  simpl. apply IH. now apply step_keeps_entries.
Qed.

Lemma entries_are_never_removed_witness :
  is_Some
    (sShaderEntries
       (the_globals
          (@run cxx17_library sample_config "/home/dev/project"
             {| the_globals := sample_forced; prompt_open := true; compiled := [] |}
             [Tick shaders_fs; Input "-r"; Tick shaders_fs]))
     !! "/home/dev/project/basic.frag").
Proof.
  apply (@entries_are_never_removed cxx17_library sample_config "/home/dev/project"
           {| the_globals := sample_forced; prompt_open := true; compiled := [] |}
           [Tick shaders_fs; Input "-r"; Tick shaders_fs] "/home/dev/project/basic.frag").
  vm_compute. eauto.
Defined.

(** X13: each of the four quit commands, read while the prompt is open,
    sets [sApplicationExit] and ends the prompt; from then on no cycle runs
    and no line is read: the globals and the list of compiled files stay as
    they are. *)
Theorem quit_stops_everything `{FsLibrary} config watched r line events :
  prompt_open r = true ->
  line = "-q" \/ line = "-quit" \/ line = "quit" \/ line = "exit" ->
  sApplicationExit (the_globals (step config watched r (Input line))) = true /\
  compiled (step config watched r (Input line)) = compiled r /\
  run config watched (step config watched r (Input line)) events
  = step config watched r (Input line).
Proof.
  intros Hopen Hquit.
  assert (Hstep : step config watched r (Input line)
                  = {| the_globals := set_sApplicationExit true (the_globals r);
                       prompt_open := false; compiled := compiled r |}).
  { simpl. rewrite Hopen. unfold command. now rewrite bool_decide_eq_true_2 by exact Hquit. }
  rewrite Hstep. split; [reflexivity|]. split; [reflexivity|].
  apply run_stopped. now split.
Qed.

Lemma quit_stops_everything_witness :
  @run cxx17_library sample_config "/home/dev/project"
    (@step cxx17_library sample_config "/home/dev/project" running_initial (Input "exit"))
    [Tick sample_fs; Input "-r"; Tick touched_fs]
  = @step cxx17_library sample_config "/home/dev/project" running_initial (Input "exit").
Proof.
  apply (@quit_stops_everything cxx17_library sample_config "/home/dev/project"
           running_initial "exit" [Tick sample_fs; Input "-r"; Tick touched_fs]).
  - reflexivity.
  - right. right. right. reflexivity.
Defined.

(** X14: a recompile requested before the first cycle is lost when
    compile-on-startup is off: the first cycle registers the files without
    compiling any and clears the request, and the next cycle over the same
    directory compiles nothing either. *)
Theorem early_recompile_request_is_lost `{FsLibrary} config watched fsys line :
  CompileOnStartup config = false ->
  NoDup (entry_path <$> fsys watched) ->
  line = "-r" \/ line = "-recompile" ->
  sRecompile (the_globals (run config watched running_initial [Input line])) = true /\
  compiled (run config watched running_initial [Input line; Tick fsys]) = [] /\
  sRecompile (the_globals (run config watched running_initial [Input line; Tick fsys]))
    = false /\
  compiled (run config watched running_initial [Input line; Tick fsys; Tick fsys]) = [].
Proof.
  intros Hoff Hnodup Hline.
  assert (Hnotquit : ~ (line = "-q" \/ line = "-quit" \/ line = "quit" \/ line = "exit")).
  { destruct Hline as [-> | ->]; intros [Hq | [Hq | [Hq | Hq]]]; discriminate Hq. }
  assert (Hrequest : run config watched running_initial [Input line]
                     = {| the_globals := set_sRecompile true globals_initial;
                          prompt_open := true; compiled := [] |}).
  { simpl. unfold command.
    rewrite bool_decide_eq_false_2 by exact Hnotquit.
    now rewrite bool_decide_eq_true_2 by exact Hline. }
  assert (Hsilent : (cycle config fsys watched (set_sRecompile true globals_initial)).2 = []).
  { now apply first_cycle_silent. }
  assert (Hfirst : run config watched running_initial [Input line; Tick fsys]
                   = {| the_globals :=
                          (cycle config fsys watched (set_sRecompile true globals_initial)).1;
                        prompt_open := true; compiled := [] |}).
  { change (run config watched running_initial [Input line; Tick fsys])
      with (step config watched (run config watched running_initial [Input line])
              (Tick fsys)).
    rewrite Hrequest. simpl.
    destruct (cycle config fsys watched (set_sRecompile true globals_initial))
      as [g calls]. simpl in *. now rewrite Hsilent. }
  split; [now rewrite Hrequest|]. split; [now rewrite Hfirst|].
  split; [rewrite Hfirst; apply cycle_clears|].
  change (run config watched running_initial [Input line; Tick fsys; Tick fsys])
    with (step config watched (run config watched running_initial [Input line; Tick fsys])
            (Tick fsys)).
  rewrite Hfirst. simpl.
  rewrite cycle_again by exact Hnodup.
  now destruct (sApplicationExit _).
Qed.

Lemma early_recompile_request_is_lost_witness :
  compiled
    (@run cxx17_library sample_config "/home/dev/project" running_initial
       [Input "-recompile"; Tick sample_fs; Tick sample_fs]) = [].
Proof.
  apply (@early_recompile_request_is_lost cxx17_library sample_config
           "/home/dev/project" sample_fs "-recompile").
  - reflexivity.
  - apply (bool_decide_unpack _). vm_compute. exact I.
  - right. reflexivity.
Defined.

(** X15: when the input ends before a quit command was read, nothing can
    stop the watcher any more: whatever follows, [sApplicationExit] stays
    false and the prompt stays closed, so every later cycle runs. *)
Theorem input_end_leaves_watcher_running `{FsLibrary} config watched r events :
  sApplicationExit (the_globals r) = false ->
  sApplicationExit
    (the_globals (run config watched (step config watched r InputEnd) events)) = false /\
  prompt_open (run config watched (step config watched r InputEnd) events) = false.
Proof.
  intros Hexit. apply run_unattended. now split.
Qed.

Lemma input_end_leaves_watcher_running_witness :
  sApplicationExit
    (the_globals
       (@run cxx17_library sample_config "/home/dev/project"
          (@step cxx17_library sample_config "/home/dev/project" running_initial InputEnd)
          [Tick sample_fs; Input "quit"; Tick sample_fs])) = false.
Proof.
  apply (@input_end_leaves_watcher_running cxx17_library sample_config
           "/home/dev/project" running_initial
           [Tick sample_fs; Input "quit"; Tick sample_fs]).
  reflexivity.
Defined.

(** * Stored times *)

(** X16: the time stored for a tracked file changes only when the file is
    compiled: if a cycle over a directory that lists each path once leaves
    another time for a path than it found, exactly one call of
    [compileShader] was made for that path in the cycle, with the stem and
    the extension of the path as arguments. *)
Theorem stored_time_changes_only_with_compile `{FsLibrary} config fsys watched g k known :
  NoDup (entry_path <$> fsys watched) ->
  sShaderEntries g !! k = Some known ->
  sShaderEntries (cycle config fsys watched g).1 !! k <> Some known ->
  calls_for k (cycle config fsys watched g).2
    = [ {| call_path := k; call_filename := stem k; call_ext := extension k |} ] /\
  count_calls k (cycle config fsys watched g).2 = 1%nat.
Proof.
  intros Hnodup Hknown Hchanged. rewrite cycle_eq in *. simpl in *.
  destruct (decide (k ∈ entry_path <$> fsys watched)) as [Hin|Hout].
  - apply list_elem_of_fmap in Hin as (p & -> & Hp).
    rewrite (scan_calls_at config g (fsys watched) p Hnodup Hp).
    destruct (scan_at config g (fsys watched) p Hnodup Hp) as [Hcount Hlookup].
    rewrite Hcount. rewrite Hlookup in Hchanged. revert Hchanged.
    unfold visit. rewrite Hknown.
    repeat case_match; simpl; intros Hchanged; try congruence.
    split; [apply calls_for_single | apply count_calls_single].
  - rewrite scan_lookup_other in Hchanged by exact Hout. congruence.
Qed.

Lemma stored_time_changes_only_with_compile_witness :
  calls_for "/home/dev/project/basic.vert"
    (@cycle cxx17_library sample_config sample_fs "/home/dev/project" sample_tracked).2
  = [ {| call_path := "/home/dev/project/basic.vert"; call_filename := "basic";
         call_ext := ".vert" |} ] /\
  count_calls "/home/dev/project/basic.vert"
    (@cycle cxx17_library sample_config sample_fs "/home/dev/project" sample_tracked).2
  = 1%nat.
Proof.
  apply (@stored_time_changes_only_with_compile cxx17_library sample_config sample_fs
           "/home/dev/project" sample_tracked "/home/dev/project/basic.vert"
           {| LastWriteTime := 2500000000 |}).
  - apply (bool_decide_unpack _). vm_compute. exact I.
  - reflexivity.
  - vm_compute. discriminate.
Defined.

Lemma nanoseconds_to_time_t_mono a b :
  a <= b -> nanoseconds_to_time_t a <= nanoseconds_to_time_t b.
Proof. intros Hle. unfold nanoseconds_to_time_t. apply Z.quot_le_mono; lia. Qed.

(** X17: with a clock conversion that keeps the order of times, a tracked
    file whose modification time is not later than the stored one (an older
    copy put back, say) is not compiled and keeps its stored time, unless a
    recompile is forced. *)
Theorem older_file_is_not_recompiled `{FsLibrary} config g p known :
  (forall a b, a <= b -> to_time_t a <= to_time_t b) ->
  sShaderEntries g !! entry_path p = Some known ->
  last_write_time p <= LastWriteTime known ->
  sRecompile g = false ->
  visit config g p = (g, []).
Proof.
  intros Hmono Hknown Hold Hflag. unfold visit. rewrite Hknown, Hflag.
  pose proof (Hmono _ _ Hold).
  rewrite bool_decide_eq_false_2 by lia.
  now repeat case_match.
Qed.

Lemma older_file_is_not_recompiled_witness :
  @visit cxx17_library sample_config
    (set_sRecompile false sample_forced)
    {| entry_path := "/home/dev/project/basic.vert"; is_regular_file := true;
       last_write_time := 1000000000 |}
  = (set_sRecompile false sample_forced, []).
Proof.
  apply (@older_file_is_not_recompiled cxx17_library sample_config
           (set_sRecompile false sample_forced)
           {| entry_path := "/home/dev/project/basic.vert"; is_regular_file := true;
              last_write_time := 1000000000 |}
           {| LastWriteTime := 5000000000 |}).
  - exact nanoseconds_to_time_t_mono.
  - reflexivity.
  - vm_compute. discriminate.
  - reflexivity.
Defined.
